(** * A shallow embedding of [app.py]

    The application is a Streamlit script with two views: a chat relay to an
    LLM webhook and a commute-time log over one SQLite table.  The embedding
    follows the script function by function.  Python [str] values are
    sequences of Unicode code points, the SQLite table is the list of its
    rows, and everything the script does to the outside world (the session
    store, the database, the widgets it draws, the faults it lets escape) is
    threaded through an explicit world value. *)

From Stdlib Require Import ZArith NArith Lia.
From Stdlib Require Import Ascii String DecimalString.
From stdpp Require Import base option list gmap sorting.

Local Open Scope Z_scope.

(** ** Python strings *)

Module PyStr.

(** A Python [str] is a sequence of code points. *)
Abbreviation pystr := (list N).

(** String literals of the script are written as Rocq literals, which hold
    UTF-8 bytes; [py] decodes them into code points. *)
Fixpoint utf8_decode (bs : list N) : pystr :=
  match bs with
  | [] => []
  | b0 :: t0 =>
    if (b0 <? 128)%N then b0 :: utf8_decode t0 else
    match t0 with
    | [] => []
    | b1 :: t1 =>
      if (b0 <? 224)%N
      then ((b0 mod 32) * 64 + b1 mod 64)%N :: utf8_decode t1 else
      match t1 with
      | [] => []
      | b2 :: t2 =>
        if (b0 <? 240)%N
        then ((b0 mod 16) * 4096 + (b1 mod 64) * 64 + b2 mod 64)%N
               :: utf8_decode t2 else
        match t2 with
        | [] => []
        | b3 :: t3 =>
          ((b0 mod 8) * 262144 + (b1 mod 64) * 4096
           + (b2 mod 64) * 64 + b3 mod 64)%N :: utf8_decode t3
        end
      end
    end
  end.

Definition py (s : string) : pystr :=
  utf8_decode (map N_of_ascii (list_ascii_of_string s)).

Definition NEWLINE : N := 10%N.
Definition COMMA : N := 44%N.
Definition SPACE : N := 32%N.
Definition HASH : N := 35%N.

(** [str.isspace] on one code point: the characters CPython's
    [_PyUnicode_IsWhitespace] accepts. *)
Definition is_space (c : N) : bool :=
  ((9 <=? c) && (c <=? 13) || (28 <=? c) && (c <=? 32)
   || (c =? 133) || (c =? 160) || (c =? 5760)
   || (8192 <=? c) && (c <=? 8202)
   || (c =? 8232) || (c =? 8233) || (c =? 8239) || (c =? 8287)
   || (c =? 12288))%N.

Fixpoint lstrip (s : pystr) : pystr :=
  match s with
  | c :: s' => if is_space c then lstrip s' else s
  | [] => []
  end.

Definition rstrip (s : pystr) : pystr := rev (lstrip (rev s)).

(** [s.strip()] *)
Definition strip (s : pystr) : pystr := rstrip (lstrip s).

(** [s.startswith(c)] for a one-character prefix. *)
Definition startswith (c : N) (s : pystr) : bool :=
  match s with
  | c' :: _ => (c' =? c)%N
  | [] => false
  end.

(** [s.replace(old, new)] where [old] and [new] are one character each. *)
Definition replace (old new : N) (s : pystr) : pystr :=
  map (fun c => if (c =? old)%N then new else c) s.

(** [sep.join(parts)] *)
Fixpoint join (sep : pystr) (parts : list pystr) : pystr :=
  match parts with
  | [] => []
  | [p] => p
  | p :: ps => p ++ sep ++ join sep ps
  end.

(** [s.split(sep)] for a one-character separator: the pieces between the
    occurrences of [sep]. *)
Fixpoint split_on (sep : N) (s : pystr) : list pystr :=
  match s with
  | [] => [[]]
  | c :: s' =>
    if (c =? sep)%N then [] :: split_on sep s'
    else match split_on sep s' with
         | p :: ps => (c :: p) :: ps
         | [] => [[c]]
         end
  end.

(** [s.count(c)] for one character. *)
Definition count (c : N) (s : pystr) : nat :=
  length (filter (fun c' => c' = c) s).

Definition digit (d : N) : N := (48 + d)%N.

Fixpoint uint_digits (d : Decimal.uint) : pystr :=
  match d with
  | Decimal.Nil => []
  | Decimal.D0 d => digit 0 :: uint_digits d
  | Decimal.D1 d => digit 1 :: uint_digits d
  | Decimal.D2 d => digit 2 :: uint_digits d
  | Decimal.D3 d => digit 3 :: uint_digits d
  | Decimal.D4 d => digit 4 :: uint_digits d
  | Decimal.D5 d => digit 5 :: uint_digits d
  | Decimal.D6 d => digit 6 :: uint_digits d
  | Decimal.D7 d => digit 7 :: uint_digits d
  | Decimal.D8 d => digit 8 :: uint_digits d
  | Decimal.D9 d => digit 9 :: uint_digits d
  end.

(** [str(n)] for a Python [int]. *)
Definition str_int (n : Z) : pystr :=
  match Z.to_int n with
  | Decimal.Pos d => uint_digits d
  | Decimal.Neg d => 45%N :: uint_digits d
  end.

(** ["%02d" % n] and ["%04d" % n] on the ranges the [datetime] types keep
    their fields in (0..99 and 0..9999). *)
Definition pad2 (n : N) : pystr :=
  [digit (n / 10 mod 10); digit (n mod 10)]%N.

Definition pad4 (n : N) : pystr :=
  [digit (n / 1000 mod 10); digit (n / 100 mod 10);
   digit (n / 10 mod 10); digit (n mod 10)]%N.

(** Lexicographic comparison by code point.  SQLite compares [TEXT] values
    bytewise on their UTF-8 encoding (the [BINARY] collation), which orders
    strings exactly as their code points do. *)
Fixpoint compare (a b : pystr) : comparison :=
  match a, b with
  | [], [] => Eq
  | [], _ :: _ => Lt
  | _ :: _, [] => Gt
  | x :: a', y :: b' =>
    match (x ?= y)%N with
    | Eq => compare a' b'
    | c => c
    end
  end.

End PyStr.

Import PyStr.

(** ** Dates and times

    The fields of Python's [date], [time] and [datetime] values; the types
    keep them in range (year 1..9999, month 1..12, hour 0..23, ...). *)

Module Clock.

Record date := { year : N; month : N; day : N }.

Record time := { hour : N; minute : N; second : N; microsecond : N }.

Record datetime := { on_date : date; at_time : time }.

(** [d.isoformat()] *)
Definition date_isoformat (d : date) : pystr :=
  pad4 (year d) ++ py "-" ++ pad2 (month d) ++ py "-" ++ pad2 (day d).

(** [t.strftime("%H:%M")] *)
Definition strftime_HM (t : time) : pystr :=
  pad2 (hour t) ++ py ":" ++ pad2 (minute t).

(** [dt.isoformat(timespec="seconds")] of a naive [datetime]. *)
Definition isoformat_seconds (dt : datetime) : pystr :=
  date_isoformat (on_date dt) ++ py "T"
  ++ pad2 (hour (at_time dt)) ++ py ":" ++ pad2 (minute (at_time dt))
  ++ py ":" ++ pad2 (second (at_time dt)).

End Clock.

Import Clock.

(** ** Faults

    The script catches [FileNotFoundError] in one place and nothing else:
    every other exception leaves the function that raised it. *)

Inductive exn :=
  | KeyError
  | TypeError
  | JSONDecodeError
  | RequestException
  | AttributeError
  | OperationalError
  | OverflowError
  | OSError.

Inductive result (A : Type) :=
  | Ok (a : A)
  | Raise (e : exn).

Arguments Ok {A} a.
Arguments Raise {A} e.

(** ** The commute log store *)

Module Store.

(** A value in a row that [sqlite3] hands back for this table. *)
Inductive sqlval :=
  | SqlNull
  | SqlInt (n : Z)
  | SqlText (s : pystr).

(** [str(v)] *)
Definition py_str (v : sqlval) : pystr :=
  match v with
  | SqlNull => py "None"
  | SqlInt n => str_int n
  | SqlText s => s
  end.

(** A row as a Python [dict] from column name to value. *)
Abbreviation rowdict := (gmap (list N) sqlval).

(** One row of [commute_logs].  [notes] is the only nullable column.  The
    duration is the integer that was bound; the widget of the form keeps
    it between 1 and 2^53 - 1. *)
Record CommuteLog := {
  id : Z;
  travel_date : pystr;
  travel_time : pystr;
  route_name : pystr;
  duration_minutes : Z;
  notes : option pystr;
  created_at : pystr
}.

(** The database file: [None] until [commute_logs] has been created, then
    its rows in insertion order. *)
Abbreviation database := (option (list CommuteLog)).

(** [CREATE TABLE IF NOT EXISTS commute_logs (...)] *)
Definition init_commute_db (db : database) : database :=
  match db with
  | None => Some []
  | Some t => Some t
  end.

(** [INTEGER PRIMARY KEY AUTOINCREMENT]: one more than the largest id the
    table has held; the application never deletes a row. *)
Definition next_id (t : list CommuteLog) : Z :=
  1 + foldr Z.max 0 (id <$> t).

Definition insert_commute_log (now : datetime)
    (travel_date travel_time route_name : pystr) (duration_minutes : Z)
    (notes : pystr) (db : database) : result unit * database :=
  let created_at := isoformat_seconds now in
  match db with
  | None => (Raise OperationalError, db)
  | Some t =>
    (Ok tt,
     Some (t ++ [{| id := next_id t;
                    travel_date := travel_date;
                    travel_time := travel_time;
                    route_name := route_name;
                    duration_minutes := duration_minutes;
                    notes := Some notes;
                    created_at := created_at |}]))
  end.

(** [ORDER BY travel_date DESC, travel_time DESC, id DESC]: the comparison
    of the sort key, and "[a] may stand before [b]". *)
Definition log_key_compare (a b : CommuteLog) : comparison :=
  match PyStr.compare (travel_date a) (travel_date b) with
  | Eq =>
    match PyStr.compare (travel_time a) (travel_time b) with
    | Eq => id a ?= id b
    | c => c
    end
  | c => c
  end.

Definition log_order : relation CommuteLog :=
  fun a b => log_key_compare a b <> Lt.

#[export] Instance log_order_dec a b : Decision (log_order a b).
Proof. unfold log_order. apply _. Defined.

(** [LIMIT n]: a negative [n] is no limit at all in SQLite. *)
Definition sql_limit {A} (n : Z) (l : list A) : list A :=
  if n <? 0 then l else take (Z.to_nat n) l.

(** The rows the [SELECT] of [fetch_commute_logs] picks, still with their
    ids. *)
Definition select_commute_logs (limit : Z) (t : list CommuteLog)
  : list CommuteLog :=
  sql_limit limit (merge_sort log_order t).

Definition sql_text_or_null (o : option pystr) : sqlval :=
  match o with
  | Some s => SqlText s
  | None => SqlNull
  end.

(** [dict(row)] for the six selected columns. *)
Definition log_dict (r : CommuteLog) : rowdict :=
  <[py "travel_date" := SqlText (travel_date r)]>
  (<[py "travel_time" := SqlText (travel_time r)]>
  (<[py "route_name" := SqlText (route_name r)]>
  (<[py "duration_minutes" := SqlInt (duration_minutes r)]>
  (<[py "notes" := sql_text_or_null (notes r)]>
  (<[py "created_at" := SqlText (created_at r)]> ∅))))).

Definition DEFAULT_LIMIT : Z := 50.

(** What SQLite holds as an [INTEGER]: a signed 64-bit number. *)
Definition int64 (z : Z) : bool := (- 2 ^ 63 <=? z) && (z <? 2 ^ 63).

(** [fetch_commute_logs(limit=50)]; [None] stands for a call that leaves
    the argument out.  The statement is prepared first, which fails
    without the table; then the limit is bound, and [sqlite3] raises
    [OverflowError] for a Python [int] that does not fit 64 bits. *)
Definition fetch_commute_logs (limit : option Z) (db : database)
  : result (list rowdict) :=
  match db with
  | None => Raise OperationalError
  | Some t =>
    if int64 (default DEFAULT_LIMIT limit)
    then Ok (log_dict <$> select_commute_logs (default DEFAULT_LIMIT limit) t)
    else Raise OverflowError
  end.

End Store.

Import Store.

(** ** Route statistics *)

Module Summary.

(** A Python [float], by the 64 bits of its IEEE 754 double. *)
Record double := { double_bits : N }.

(** One row of the statistics query, a [dict] with these four keys. *)
Record RouteSummary := {
  route_name : pystr;
  trips : Z;
  total_minutes : Z;
  avg_minutes : double
}.

(** [SUM] over integers keeps a running 64-bit total, in the order the
    rows are read, and the query fails with "integer overflow" once a step
    leaves the range: [None].  For durations that are not negative, as the
    form's are, the order of the rows makes no difference to that. *)
Fixpoint sum_from (acc : Z) (l : list Z) : option Z :=
  match l with
  | [] => Some acc
  | x :: l' => if int64 (acc + x) then sum_from (acc + x) l' else None
  end.

(** [SUM(duration_minutes)] *)
Definition sql_sum (g : list CommuteLog) : option Z :=
  sum_from 0 (duration_minutes <$> g).

(** [GROUP BY route_name]: the distinct names, each with its rows.  SQL
    leaves the order of the groups, and of records that tie in the
    [ORDER BY], to the engine; the model lists the groups by first
    occurrence and sorts them with a merge sort. *)
Definition group_by_route (t : list CommuteLog)
  : list (pystr * list CommuteLog) :=
  (fun name => (name, filter (fun r => Store.route_name r = name) t))
    <$> remove_dups (Store.route_name <$> t).

(** The select list over one group: [COUNT], [SUM], [ROUND(AVG, 1)].
    SQLite computes [AVG] and [ROUND] in double precision, with its own
    conversion to and from decimal digits; [round_avg] stands for that
    computation, from the integers of the group (listed here in the order
    of the table) to the double it gives, and the model says nothing about
    its arithmetic. *)
Definition aggregate (round_avg : list Z -> double)
    (group : pystr * list CommuteLog) : option RouteSummary :=
  match sql_sum group.2 with
  | Some total =>
    Some {| route_name := group.1;
            trips := Z.of_nat (length group.2);
            total_minutes := total;
            avg_minutes := round_avg (duration_minutes <$> group.2) |}
  | None => None
  end.

(** [ORDER BY total_minutes DESC, trips DESC]: "[a] may stand before [b]". *)
Definition summary_order : relation RouteSummary :=
  fun a b =>
    total_minutes b < total_minutes a
    \/ (total_minutes a = total_minutes b /\ trips b <= trips a).

#[export] Instance summary_order_dec a b : Decision (summary_order a b).
Proof. unfold summary_order. apply _. Defined.

Definition fetch_commute_summary (round_avg : list Z -> double)
    (db : database) : result (list RouteSummary) :=
  match db with
  | None => Raise OperationalError
  | Some t =>
    match mapM (aggregate round_avg) (group_by_route t) with
    | Some records => Ok (merge_sort summary_order records)
    | None => Raise OperationalError
    end
  end.

End Summary.

Import Summary.

(** ** CSV export *)

Definition CSV_HEADER : list pystr :=
  [py "travel_date"; py "travel_time"; py "route_name";
   py "duration_minutes"; py "notes"; py "created_at"].

(** [str(log.get(col, "")).replace("\n", " ").replace(",", " ")] *)
Definition csv_field (log : rowdict) (col : pystr) : pystr :=
  replace COMMA SPACE
    (replace NEWLINE SPACE (py_str (default (SqlText []) (log !! col)))).

Definition csv_line (log : rowdict) : pystr :=
  join [COMMA] (csv_field log <$> CSV_HEADER).

Definition build_csv (logs : list rowdict) : pystr :=
  join [NEWLINE] (join [COMMA] CSV_HEADER :: (csv_line <$> logs)).

(** ** Session identifiers *)

Module Uuid.

(** [uuid.uuid4()]: sixteen random bytes read as a big-endian integer, with
    the variant bits set to [10] and the version nibble set to [4]. *)
Definition uuid4 (random : N) : N :=
  let i := N.land random (N.ones 128) in
  let i := N.ldiff i (N.shiftl 49152 48) in
  let i := N.lor i (N.shiftl 32768 48) in
  let i := N.ldiff i (N.shiftl 61440 64) in
  N.lor i (N.shiftl 4 76).

Definition hex_digit (d : N) : N :=
  if (d <? 10)%N then (48 + d)%N else (87 + d)%N.

(** ['%032x' % i] *)
Definition hex32 (i : N) : pystr :=
  (fun k => hex_digit (N.land (N.shiftr i (4 * N.of_nat (31 - k))) 15))
    <$> seq 0 32.

(** [str(u)]: the 8-4-4-4-12 form. *)
Definition uuid_str (i : N) : pystr :=
  let hex := hex32 i in
  take 8 hex ++ py "-" ++ take 4 (drop 8 hex) ++ py "-"
  ++ take 4 (drop 12 hex) ++ py "-" ++ take 4 (drop 16 hex) ++ py "-"
  ++ drop 20 hex.

Definition is_hex (c : N) : bool :=
  ((48 <=? c) && (c <=? 57) || (97 <=? c) && (c <=? 102))%N.

(** The textual shape of a UUID: 36 characters, hyphens at offsets 8, 13,
    18 and 23, lower-case hexadecimal digits elsewhere. *)
Definition hyphen_at (k : nat) : bool :=
  (k =? 8)%nat || (k =? 13)%nat || (k =? 18)%nat || (k =? 23)%nat.

Definition uuid_format (s : pystr) : Prop :=
  length s = 36%nat
  /\ forall (k : nat) (c : N), s !! k = Some c ->
       if hyphen_at k then c = 45%N else is_hex c = true.

End Uuid.

Import Uuid.

(** ** Values that come back from the webhook *)

(** What [response.json()] can return.  Numbers are integers here; the
    script never looks inside the value it takes from the body. *)
#[local] Unset Elimination Schemes.
Inductive pyval :=
  | PyNone
  | PyBool (b : bool)
  | PyInt (n : Z)
  | PyStr (s : pystr)
  | PyList (items : list pyval)
  | PyDict (items : list (pystr * pyval)).
#[local] Set Elimination Schemes.

Fixpoint dict_lookup (key : pystr) (items : list (pystr * pyval))
  : option pyval :=
  match items with
  | [] => None
  | (k, v) :: rest => if decide (k = key) then Some v else dict_lookup key rest
  end.

(** [v[key]] for a string key. *)
Definition getitem (v : pyval) (key : pystr) : result pyval :=
  match v with
  | PyDict items =>
    match dict_lookup key items with
    | Some x => Ok x
    | None => Raise KeyError
    end
  | _ => Raise TypeError
  end.

(** The JSON body the script posts. *)
Record Payload := { sessionId : pystr; chatInput : pystr }.

(** The parts of a [requests.Response] the script reads; [json] is [None]
    when the body does not parse. *)
Record Response := {
  status_code : Z;
  text : pystr;
  json : option pyval
}.

(** ** The world around one run of the script *)

Record ChatMessage := { role : pystr; content : pyval }.

(** [st.session_state]: each of the two keys is there or not. *)
Record SessionState := {
  messages : option (list ChatMessage);
  session_id : option pystr
}.

Module Ui.

(** What a run draws, in order. *)
Inductive event :=
  | st_sidebar_title (s : pystr)
  | st_title (s : pystr)
  | st_write (s : pystr)
  | st_subheader (s : pystr)
  | st_divider
  | st_error (s : pystr)
  | st_info (s : pystr)
  | st_warning (s : pystr)
  | st_success (s : pystr)
  | st_dataframe_logs (logs : list rowdict)
  | st_dataframe_summary (summary : list RouteSummary)
  | st_download_button (label data file_name mime : pystr)
  | st_chat_message (role : pystr) (body : pyval).

End Ui.

Record World := {
  session_state : SessionState;
  db : database;
  screen : list Ui.event
}.

(** What the run gets from outside: the clock, the random bytes behind
    [uuid4], the webhook behind [requests.post], and the floating-point
    arithmetic of the database engine behind [ROUND(AVG(...), 1)]. *)
Record Env := {
  now : datetime;
  urandom : N;
  post : pystr -> Payload -> result Response;
  sqlite_round_avg : list Z -> double
}.

(** A computation over the world that may fault; what it did before the
    fault stays done. *)
Definition M (A : Type) : Type := World -> result A * World.

Definition ret {A} (a : A) : M A := fun w => (Ok a, w).

Definition bind {A B} (m : M A) (k : A -> M B) : M B :=
  fun w =>
    match m w with
    | (Ok a, w') => k a w'
    | (Raise e, w') => (Raise e, w')
    end.

Notation "x <- m ;; k" := (bind m (fun x => k))
  (at level 100, m at next level, right associativity).
Notation "m ;; k" := (bind m (fun _ => k))
  (at level 100, right associativity).

Definition lift {A} (r : result A) : M A := fun w => (r, w).

Definition draw (e : Ui.event) : M unit :=
  fun w => (Ok tt, {| session_state := session_state w; db := db w;
                      screen := screen w ++ [e] |}).

Definition get_session : M SessionState :=
  fun w => (Ok (session_state w), w).

Definition put_session (s : SessionState) : M unit :=
  fun w => (Ok tt, {| session_state := s; db := db w; screen := screen w |}).

Definition with_db {A} (f : database -> result A * database) : M A :=
  fun w =>
    let '(r, d) := f (db w) in
    (r, {| session_state := session_state w; db := d; screen := screen w |}).

Fixpoint for_each {A} (l : list A) (body : A -> M unit) : M unit :=
  match l with
  | [] => ret tt
  | x :: l' => body x ;; for_each l' body
  end.

(** [if s:] on a string *)
Definition truthy (s : pystr) : bool :=
  match s with
  | [] => false
  | _ :: _ => true
  end.

(** ** Webhook URL *)

(** What [open('config.txt')] and [f.read()] come to: no such file, the
    decoded text, or some other fault, which the script does not catch. *)
Inductive file_read :=
  | FileNotFound
  | FileText (content : pystr)
  | FileFault (e : exn).

(** [environ] is [os.environ.get("WEBHOOK_URL")] once [load_dotenv()] has
    run. *)
Record Config := {
  config_txt : file_read;
  environ : option pystr
}.

Definition load_webhook_url (c : Config) : result (option pystr) :=
  let from_environ :=
    match environ c with
    | Some webhook_url => if truthy webhook_url then Some webhook_url else None
    | None => None
    end in
  match config_txt c with
  | FileText raw =>
    let content := strip raw in
    if truthy content && negb (startswith HASH content)
    then Ok (Some content)
    else Ok from_environ
  | FileNotFound => Ok from_environ
  | FileFault e => Raise e
  end.

Definition MSG_NO_WEBHOOK : pystr :=
  py "웹훅 URL이 설정되지 않았습니다. config.txt 파일에 웹훅 URL을 입력하거나 환경 변수 WEBHOOK_URL을 설정해주세요.".

Definition MSG_SETUP : pystr :=
  py "config.txt 파일을 생성하고 첫 번째 줄에 웹훅 URL을 입력해주세요.".

(** How the module-level code ends: with [WEBHOOK_URL] set, or in
    [st.stop()]. *)
Inductive startup :=
  | Started (WEBHOOK_URL : pystr)
  | Stopped.

Definition configure (c : Config) : M startup :=
  url <- lift (load_webhook_url c) ;;
  match url with
  | Some u =>
    if truthy u then ret (Started u)
    else draw (Ui.st_error MSG_NO_WEBHOOK) ;; draw (Ui.st_info MSG_SETUP) ;;
         ret Stopped
  | None =>
    draw (Ui.st_error MSG_NO_WEBHOOK) ;; draw (Ui.st_info MSG_SETUP) ;;
    ret Stopped
  end.

(** ** Chat *)

Definition generate_session_id (env : Env) : pystr :=
  uuid_str (uuid4 (urandom env)).

Definition send_message_to_llm (env : Env) (WEBHOOK_URL : pystr)
    (session_id message : pystr) : result pyval :=
  let payload := {| sessionId := session_id; chatInput := message |} in
  match post env WEBHOOK_URL payload with
  | Raise e => Raise e
  | Ok response =>
    if status_code response =? 200 then
      match json response with
      | Some body => getitem body (py "output")
      | None => Raise JSONDecodeError
      end
    else
      Ok (PyStr (py "Error: " ++ str_int (status_code response)
                 ++ py " - " ++ text response))
  end.

(** [st.session_state.messages] and [st.session_state.session_id] *)
Definition session_messages : M (list ChatMessage) :=
  s <- get_session ;;
  match messages s with
  | Some l => ret l
  | None => lift (Raise AttributeError)
  end.

Definition session_session_id : M pystr :=
  s <- get_session ;;
  match session_id s with
  | Some i => ret i
  | None => lift (Raise AttributeError)
  end.

(** [st.session_state.messages.append(m)] *)
Definition append_message (m : ChatMessage) : M unit :=
  l <- session_messages ;;
  s <- get_session ;;
  put_session {| messages := Some (l ++ [m]); session_id := session_id s |}.

(** The two [if ... not in st.session_state] statements of [main]. *)
Definition initialize (env : Env) : M unit :=
  s <- get_session ;;
  match messages s with
   | None => put_session {| messages := Some []; session_id := session_id s |}
   | Some _ => ret tt
   end ;;
  s <- get_session ;;
  match session_id s with
  | None =>
    put_session {| messages := messages s;
                   session_id := Some (generate_session_id env) |}
  | Some _ => ret tt
  end.

(** The loop over the stored messages. *)
Definition render_history : M unit :=
  l <- session_messages ;;
  for_each l (fun message =>
    draw (Ui.st_chat_message (role message) (content message))).

(** The [if user_input:] block of [main]; [st.chat_input] gives [None]
    when nothing was sent. *)
Definition submit (env : Env) (WEBHOOK_URL : pystr)
    (user_input : option pystr) : M unit :=
  match user_input with
  | Some user_text =>
    if truthy user_text then
      append_message {| role := py "user"; content := PyStr user_text |} ;;
      draw (Ui.st_chat_message (py "user") (PyStr user_text)) ;;
      sid <- session_session_id ;;
      llm_response <-
        lift (send_message_to_llm env WEBHOOK_URL sid user_text) ;;
      append_message {| role := py "assistant"; content := llm_response |} ;;
      draw (Ui.st_chat_message (py "assistant") llm_response)
    else ret tt
  | None => ret tt
  end.

(** ** Commute tracker *)

(** What the widgets of the form hand to the run.  [st.number_input] is
    given [min_value=1] and integer arguments, so [duration_minutes] is an
    integer that is at least 1; [submitted] is true in the run that follows
    a press of the save button. *)
Record FormInput := {
  form_travel_date : date;
  form_travel_time : time;
  form_route_name : pystr;
  form_duration_minutes : Z;
  form_notes : pystr;
  submitted : bool
}.

Definition MSG_ROUTE_REQUIRED : pystr := py "경로 이름을 입력해주세요.".
Definition MSG_SAVED : pystr := py "이동 시간이 저장되었습니다.".

(** The [if submitted:] block of [render_commute_tracker]. *)
Definition submit_entry (env : Env) (f : FormInput) : M unit :=
  if submitted f then
    if negb (truthy (strip (form_route_name f))) then
      draw (Ui.st_warning MSG_ROUTE_REQUIRED)
    else
      with_db (insert_commute_log (now env)
                 (date_isoformat (form_travel_date f))
                 (strftime_HM (form_travel_time f))
                 (strip (form_route_name f))
                 (form_duration_minutes f)
                 (strip (form_notes f))) ;;
      draw (Ui.st_success MSG_SAVED)
  else ret tt.

(** The part of [render_commute_tracker] under the first divider: the
    recent entries and the download button. *)
Definition render_recent_logs : M unit :=
  draw Ui.st_divider ;;
  draw (Ui.st_subheader (py "최근 기록")) ;;
  logs <- with_db (fun d => (fetch_commute_logs (Some 50) d, d)) ;;
  match logs with
  | _ :: _ =>
    draw (Ui.st_dataframe_logs logs) ;;
    draw (Ui.st_download_button (py "CSV 다운로드") (build_csv logs)
            (py "commute_logs.csv") (py "text/csv"))
  | [] => draw (Ui.st_info (py "아직 저장된 기록이 없습니다."))
  end.

(** The part under the second divider: the statistics per route. *)
Definition render_route_summary (env : Env) : M unit :=
  draw Ui.st_divider ;;
  draw (Ui.st_subheader (py "경로별 누적 통계")) ;;
  summary <-
    with_db (fun d => (fetch_commute_summary (sqlite_round_avg env) d, d)) ;;
  match summary with
  | _ :: _ => draw (Ui.st_dataframe_summary summary)
  | [] => draw (Ui.st_info (py "통계를 표시할 데이터가 없습니다."))
  end.

Definition render_commute_tracker (env : Env) (f : FormInput) : M unit :=
  draw (Ui.st_title (py "Commute Time Tracker")) ;;
  draw (Ui.st_write (py "매일 이동 시간을 기록하고 누적 통계를 확인할 수 있습니다. 입력한 데이터는 로컬 SQLite 데이터베이스에 저장됩니다.")) ;;
  with_db (fun d => (Ok tt, init_commute_db d)) ;;
  draw (Ui.st_subheader (py "이동 시간 기록")) ;;
  submit_entry env f ;;
  render_recent_logs ;;
  render_route_summary env.

(** ** The script *)

(** The choice of [st.sidebar.radio]. *)
Inductive app_mode :=
  | LLM_Chat
  | Commute_Tracker.

(** What the user did to cause this run. *)
Record Interaction := {
  mode : app_mode;
  user_input : option pystr;
  form : FormInput
}.

Definition main (env : Env) (WEBHOOK_URL : pystr) (i : Interaction)
  : M unit :=
  draw (Ui.st_sidebar_title (py "Mode")) ;;
  match mode i with
  | Commute_Tracker => render_commute_tracker env (form i)
  | LLM_Chat =>
    draw (Ui.st_title (py "Chat with LLM")) ;;
    initialize env ;;
    render_history ;;
    submit env WEBHOOK_URL (user_input i)
  end.

(** One run of [app.py] from its first line. *)
Definition script (c : Config) (env : Env) (i : Interaction) : M unit :=
  s <- configure c ;;
  match s with
  | Started WEBHOOK_URL => main env WEBHOOK_URL i
  | Stopped => ret tt
  end.

(** ** The configuration rule as the specification words it

    "Read from a local text file's first non-comment, non-empty line; if
    absent, read from an environment variable."  This definition follows
    those words, not the script, and is only compared with
    [load_webhook_url]. *)

Definition spec_first_url_line (content : pystr) : option pystr :=
  head (filter (fun l => truthy l && negb (startswith HASH l) = true)
          (strip <$> split_on NEWLINE content)).

Definition spec_load_webhook_url (c : Config) : option pystr :=
  match config_txt c with
  | FileText raw => spec_first_url_line raw
  | _ =>
    match environ c with
    | Some u => if truthy u then Some u else None
    | None => None
    end
  end.

(** ** Vocabulary of the proofs *)

(** A comparison function that is a total order. *)
Record is_order {K} (cmp : K -> K -> comparison) : Prop := {
  ord_eq a b : cmp a b = Eq -> a = b;
  ord_refl a : cmp a a = Eq;
  ord_antisym a b : cmp b a = CompOpp (cmp a b);
  ord_lt_trans a b c : cmp a b = Lt -> cmp b c = Lt -> cmp a c = Lt
}.

(** Compare first components, then second ones. *)
Definition lex {K1 K2} (cmp1 : K1 -> K1 -> comparison)
    (cmp2 : K2 -> K2 -> comparison) (x y : K1 * K2) : comparison :=
  match cmp1 x.1 y.1 with
  | Eq => cmp2 x.2 y.2
  | c => c
  end.

(** The sort key of the log listing. *)
Definition log_key (r : CommuteLog) : pystr * (pystr * Z) :=
  (travel_date r, (travel_time r, id r)).

(** ** Sample data *)

Definition one_row : CommuteLog :=
  {| id := 1; travel_date := py "2024-03-09"; travel_time := py "07:05";
     Store.route_name := py "Home"; duration_minutes := 30;
     notes := Some []; created_at := py "2024-03-09T07:06:10" |}.

(** The three entries of the specification's example:
    (RouteA, 30), (RouteA, 50), (RouteB, 20). *)
Definition entry (i : Z) (date time name : pystr) (minutes : Z)
  : CommuteLog :=
  {| id := i; travel_date := date; travel_time := time;
     Store.route_name := name; duration_minutes := minutes;
     notes := Some []; created_at := date ++ py "T" ++ time ++ py ":00" |}.

Definition sample_table : list CommuteLog :=
  [entry 1 (py "2024-03-08") (py "08:10") (py "RouteA") 30;
   entry 2 (py "2024-03-09") (py "08:05") (py "RouteA") 50;
   entry 3 (py "2024-03-09") (py "18:30") (py "RouteB") 20].

(** What the two [replace] calls of [build_csv] do to one character. *)
Definition sanitize (c : N) : N :=
  if decide (c = NEWLINE \/ c = COMMA) then SPACE else c.

(** A row whose notes are ["a,b"], a newline, ["c"]. *)
Definition noted_row : rowdict :=
  <[py "notes" := SqlText (py "a,b" ++ [NEWLINE] ++ py "c")]>
    (log_dict one_row).

(** What [render_history] draws for a transcript. *)
Definition history_events (l : list ChatMessage) : list Ui.event :=
  (fun message => Ui.st_chat_message (role message) (content message)) <$> l.

Definition USER : pystr := py "user".
Definition ASSISTANT : pystr := py "assistant".

(** The row that the save block of the form inserts into a table [t]. *)
Definition new_row (env : Env) (f : FormInput) (t : list CommuteLog)
  : CommuteLog :=
  {| id := next_id t;
     travel_date := date_isoformat (form_travel_date f);
     travel_time := strftime_HM (form_travel_time f);
     Store.route_name := strip (form_route_name f);
     duration_minutes := form_duration_minutes f;
     notes := Some (strip (form_notes f));
     created_at := isoformat_seconds (now env) |}.

(** The rows of a database, none before the table exists. *)
Definition rows_of (d : database) : list CommuteLog := default [] d.

Definition idle_form : FormInput :=
  {| form_travel_date := {| year := 2024; month := 3; day := 9 |};
     form_travel_time := {| hour := 7; minute := 5; second := 0;
                            microsecond := 0 |};
     form_route_name := [];
     form_duration_minutes := 30;
     form_notes := [];
     submitted := false |}.

(** A session that has not seen the chat view yet, over an empty disk. *)
Definition fresh_world : World :=
  {| session_state := {| messages := None; session_id := None |};
     db := None;
     screen := [] |}.

Definition sample_now : datetime :=
  {| on_date := {| year := 2024; month := 3; day := 9 |};
     at_time := {| hour := 7; minute := 6; second := 10;
                   microsecond := 250000 |} |}.

(** An engine stub that gives the double 0.0 for every group. *)
Definition stub_round_avg (durations : list Z) : double :=
  {| double_bits := 0 |}.

(** A webhook that answers every call with one fixed response. *)
Definition stub_env (r : Response) : Env :=
  {| now := sample_now; urandom := 0%N; post := fun _ _ => Ok r;
     sqlite_round_avg := stub_round_avg |}.

(** HTTP 500 with body ["internal error"]. *)
Definition internal_error : Response :=
  {| status_code := 500; text := py "internal error"; json := None |}.

(** HTTP 200 with body [{}]: valid JSON without an [output] field. *)
Definition empty_object : Response :=
  {| status_code := 200; text := py "{}"; json := Some (PyDict []) |}.

(** HTTP 200 with a JSON object whose [output] is ["hello"]. *)
Definition hello_object : Response :=
  {| status_code := 200; text := py "{}";
     json := Some (PyDict [(py "output", PyStr (py "hello"))]) |}.

Definition SAMPLE_URL : pystr := py "https://example.com/webhook".

(** The form filled in with a route name and notes, and saved. *)
Definition filled_form (route notes : pystr) : FormInput :=
  {| form_travel_date := {| year := 2024; month := 3; day := 9 |};
     form_travel_time := {| hour := 7; minute := 5; second := 0;
                            microsecond := 0 |};
     form_route_name := route;
     form_duration_minutes := 30;
     form_notes := notes;
     submitted := true |}.

Definition chat (user_text : pystr) : Interaction :=
  {| mode := LLM_Chat; user_input := Some user_text; form := idle_form |}.

(** A moment with its microseconds replaced. *)
Definition with_microsecond (dt : datetime) (us : N) : datetime :=
  {| on_date := on_date dt;
     at_time := {| hour := hour (at_time dt); minute := minute (at_time dt);
                   second := second (at_time dt); microsecond := us |} |}.

(** A world whose table holds the sample rows. *)
Definition sample_world : World :=
  {| session_state := {| messages := None; session_id := None |};
     db := Some sample_table;
     screen := [] |}.

(** A [config.txt] whose first line is a comment and whose second line is
    the URL, with no environment variable set. *)
Definition commented_config : Config :=
  {| config_txt :=
       FileText (py "# webhook" ++ [NEWLINE] ++ SAMPLE_URL ++ [NEWLINE]);
     environ := None |}.

(** A [config.txt] with the URL on its first line and a note below. *)
Definition two_line_config : Config :=
  {| config_txt :=
       FileText (SAMPLE_URL ++ [NEWLINE] ++ py "# production" ++ [NEWLINE]);
     environ := None |}.

(** [os.environ.get("WEBHOOK_URL")] when it is set and not empty. *)
Definition from_environ (c : Config) : option pystr :=
  match environ c with
  | Some webhook_url => if truthy webhook_url then Some webhook_url else None
  | None => None
  end.

(** The record of a group whose sum stays in range. *)
Definition exact_record (round_avg : list Z -> double)
    (group : pystr * list CommuteLog) : RouteSummary :=
  {| Summary.route_name := group.1;
     trips := Z.of_nat (length group.2);
     total_minutes := foldr Z.add 0 (duration_minutes <$> group.2);
     avg_minutes := round_avg (duration_minutes <$> group.2) |}.

(** No route of the table makes [SUM] overflow. *)
Definition summable (t : list CommuteLog) : Prop :=
  Forall (fun g => is_Some (sql_sum g.2)) (group_by_route t).


(** How a run of the commute view ends on the table [t]: the statistics
    are the last thing it reads. *)
Definition summary_outcome (round_avg : list Z -> double)
    (t : list CommuteLog) : result unit :=
  match fetch_commute_summary round_avg (Some t) with
  | Ok _ => Ok tt
  | Raise e => Raise e
  end.

(** ** Runs one after another

    Streamlit runs the script again from the top on every interaction; the
    session store and the database file carry over, the page is drawn
    anew. *)

Definition rerun (c : Config) (w : World) (step : Env * Interaction)
  : World :=
  (script c step.1 step.2
     {| session_state := session_state w; db := db w; screen := [] |}).2.

Definition session_runs (c : Config) (steps : list (Env * Interaction))
    (w : World) : World :=
  foldl (rerun c) w steps.

(** The interaction that opens the commute view with the form as given. *)
Definition commute (f : FormInput) : Interaction :=
  {| mode := Commute_Tracker; user_input := None; form := f |}.

(** The row the form adds in a run, if it adds one. *)
Definition saved_rows (env : Env) (i : Interaction) (t : list CommuteLog)
  : list CommuteLog :=
  match mode i with
  | Commute_Tracker =>
    if submitted (form i) && truthy (strip (form_route_name (form i)))
    then [new_row env (form i) t] else []
  | LLM_Chat => []
  end.

(** The messages a chat run appends, by how the webhook call ends. *)
Definition sent_messages (env : Env) (url sid : pystr) (i : Interaction)
  : list ChatMessage :=
  match mode i, user_input i with
  | LLM_Chat, Some user_text =>
    if truthy user_text then
      {| role := USER; content := PyStr user_text |}
      :: match send_message_to_llm env url sid user_text with
         | Ok reply => [ {| role := ASSISTANT; content := reply |} ]
         | Raise _ => []
         end
    else []
  | _, _ => []
  end.

(** The form saved on the day after the sample rows. *)
Definition late_form : FormInput :=
  {| form_travel_date := {| year := 2024; month := 3; day := 10 |};
     form_travel_time := {| hour := 6; minute := 45; second := 0;
                            microsecond := 0 |};
     form_route_name := py "RouteB";
     form_duration_minutes := 25;
     form_notes := py "early";
     submitted := true |}.

(** The sum of a column over some rows. *)
Definition column_sum {A} (w : A -> Z) (l : list A) : Z :=
  foldr Z.add 0 (w <$> l).

(** A text that the CSV export leaves as it is. *)
Definition clean (s : pystr) : Prop := (NEWLINE ∉ s) /\ (COMMA ∉ s).

(** The six texts of a stored row, in header order; a NULL in [notes]
    reads [None]. *)
Definition row_texts (r : CommuteLog) : list pystr :=
  [travel_date r; travel_time r; Store.route_name r;
   str_int (duration_minutes r); default (py "None") (notes r);
   created_at r].

(** Reading the export back: the lines after the header, cut at the
    commas. *)
Definition parse_csv (s : pystr) : list (list pystr) :=
  split_on COMMA <$> drop 1 (split_on NEWLINE s).

(** The ranges Python's [date] and [time] keep their fields in. *)
Definition valid_date (d : date) : Prop :=
  (1 <= year d <= 9999 /\ 1 <= month d <= 12 /\ 1 <= day d <= 31)%N.

Definition valid_time (t : time) : Prop :=
  (hour t <= 23 /\ minute t <= 59)%N.

(** Earlier and later on the calendar, and on the clock to the minute. *)
Definition date_compare (a b : date) : comparison :=
  lex N.compare (lex N.compare N.compare)
    (year a, (month a, day a)) (year b, (month b, day b)).

Definition minute_compare (a b : time) : comparison :=
  lex N.compare N.compare (hour a, minute a) (hour b, minute b).

(** A text with no white space at either end. *)
Definition no_outer_space (s : pystr) : Prop :=
  forall c, head s = Some c \/ last s = Some c -> is_space c = false.

(** What every row that came in through the form looks like: a route name
    that is not empty, route name and notes without white space around
    them, and date, time and creation time of the fixed widths of
    [YYYY-MM-DD], [HH:MM] and [YYYY-MM-DDTHH:MM:SS]. *)
Definition form_made (r : CommuteLog) : Prop :=
  Store.route_name r <> []
  /\ no_outer_space (Store.route_name r)
  /\ (exists n, notes r = Some n /\ no_outer_space n)
  /\ length (travel_date r) = 10%nat
  /\ length (travel_time r) = 5%nat
  /\ length (created_at r) = 19%nat.

(** The bits of the sixteen random bytes that reach the identifier: all
    128 but the two variant bits (62, 63) and the four version bits
    (76..79), which [uuid4] overwrites. *)
Definition free_bit (n : N) : bool :=
  ((n <? 128)
   && negb ((62 <=? n) && (n <? 64) || (76 <=? n) && (n <? 80)))%N.

(** The stub environment a minute later. *)
Definition later_env (r : Response) : Env :=
  {| now := {| on_date := on_date sample_now;
               at_time := {| hour := 7; minute := 7; second := 10;
                             microsecond := 0 |} |};
     urandom := 0%N; post := fun _ _ => Ok r;
     sqlite_round_avg := stub_round_avg |}.
(** * Properties *)

(** ** Sanity checks of the string and clock models *)

Example py_ascii : py "a,b" = [97; 44; 98]%N.
Proof. reflexivity. Qed.

Example py_korean : py "경로" = [44221; 47196]%N.
Proof. reflexivity. Qed.

Example strip_example : strip (py "  a b  ") = py "a b".
Proof. reflexivity. Qed.

Example str_int_examples :
  str_int 500 = py "500" /\ str_int 0 = py "0" /\ str_int (-12) = py "-12".
Proof. repeat split; reflexivity. Qed.

Example isoformat_example :
  isoformat_seconds
    {| on_date := {| year := 2024; month := 3; day := 9 |};
       at_time := {| hour := 7; minute := 5; second := 42;
                     microsecond := 123456 |} |}
  = py "2024-03-09T07:05:42".
Proof. reflexivity. Qed.

(** ** Strings *)

Section strings.

Implicit Types s : pystr.

Lemma lstrip_nil_iff s : lstrip s = [] <-> forallb is_space s = true.
Proof.
  induction s as [|c s IH]; simpl; [done|].
  destruct (is_space c); simpl; [done|]. split; intros; discriminate.
Qed.

Lemma forallb_rev (f : N -> bool) s : forallb f (rev s) = forallb f s.
Proof.
  induction s as [|c s IH]; simpl; [done|].
  rewrite forallb_app, IH. simpl. rewrite andb_true_r. apply andb_comm.
Qed.

Lemma lstrip_suffix s : exists p, s = p ++ lstrip s /\ forallb is_space p = true.
Proof.
  induction s as [|c s [p [Hp Hsp]]]; simpl.
  - by exists [].
  - destruct (is_space c) eqn:Hc.
    + exists (c :: p). simpl. rewrite Hc, Hsp. split; [by f_equal|done].
    + by exists [].
Qed.

(** [strip] leaves nothing exactly when every character is white space. *)
Lemma strip_nil_iff s : strip s = [] <-> forallb is_space s = true.
Proof.
  unfold strip, rstrip. split.
  - intros H. apply (f_equal (@rev N)) in H. rewrite rev_involutive in H.
    simpl in H. apply lstrip_nil_iff in H. rewrite forallb_rev in H.
    destruct (lstrip_suffix s) as [p [Hp Hsp]]. rewrite Hp.
    rewrite forallb_app, Hsp. done.
  - intros H. apply lstrip_nil_iff in H. by rewrite H.
Qed.

Lemma replace_length old new s : length (replace old new s) = length s.
Proof. unfold replace. apply length_map. Qed.

Lemma replace_removes old new s : old <> new -> old ∉ replace old new s.
Proof.
  intros Hne Hin. unfold replace in Hin.
  apply list_elem_of_In, in_map_iff in Hin. destruct Hin as [c [Hc _]].
  destruct (N.eqb_spec c old); congruence.
Qed.

Lemma replace_keeps_out c old new s :
  c <> new -> c ∉ s -> c ∉ replace old new s.
Proof.
  intros Hne Hout Hin. unfold replace in Hin.
  apply list_elem_of_In, in_map_iff in Hin. destruct Hin as [c' [Hc' Hin]].
  destruct (N.eqb_spec c' old); [congruence|].
  subst c'. apply Hout. by apply list_elem_of_In.
Qed.

Lemma split_on_cons_ne sep s : split_on sep s <> [].
Proof. destruct s as [|c s]; simpl; [done|]. by repeat case_match. Qed.

Lemma split_on_clean sep s : sep ∉ s -> split_on sep s = [s].
Proof.
  induction s as [|c s IH]; intros Hout; simpl; [done|].
  apply not_elem_of_cons in Hout as [Hne Hout].
  destruct (N.eqb_spec c sep); [congruence|]. by rewrite IH.
Qed.

Lemma split_on_app_sep sep p s :
  sep ∉ p -> split_on sep (p ++ sep :: s) = p :: split_on sep s.
Proof.
  induction p as [|c p IH]; intros Hout; simpl.
  - by rewrite N.eqb_refl.
  - apply not_elem_of_cons in Hout as [Hne Hout].
    destruct (N.eqb_spec c sep); [congruence|]. by rewrite IH.
Qed.

(** Splitting undoes joining when no part holds the separator. *)
Lemma split_on_join sep parts :
  parts <> [] -> Forall (fun p => sep ∉ p) parts ->
  split_on sep (join [sep] parts) = parts.
Proof.
  induction parts as [|p parts IH]; intros Hne Hall; [done|].
  apply Forall_cons in Hall as [Hp Hall].
  destruct parts as [|q parts].
  - simpl. by apply split_on_clean.
  - change (join [sep] (p :: q :: parts))
      with (p ++ sep :: join [sep] (q :: parts)).
    rewrite split_on_app_sep by done. f_equal. by apply IH.
Qed.

Lemma split_on_length sep s : length (split_on sep s) = S (count sep s).
Proof.
  unfold count. induction s as [|c s IH]; simpl; [done|].
  destruct (N.eqb_spec c sep) as [->|Hne].
  - rewrite filter_cons_True by done. simpl. by rewrite IH.
  - rewrite filter_cons_False by done.
    destruct (split_on sep s) eqn:E; [by apply split_on_cons_ne in E|].
    simpl in *. done.
Qed.

Lemma join_no_sep c sep parts :
  c ∉ sep -> Forall (fun p => c ∉ p) parts -> c ∉ join sep parts.
Proof.
  intros Hsep. induction parts as [|p parts IH]; intros Hall; simpl.
  - apply not_elem_of_nil.
  - apply Forall_cons in Hall as [Hp Hall].
    destruct parts as [|q parts]; [done|].
    rewrite !not_elem_of_app. auto.
Qed.

End strings.

(** ** Comparison functions that are total orders *)

Lemma lex_is_order {K1 K2} (cmp1 : K1 -> K1 -> comparison)
    (cmp2 : K2 -> K2 -> comparison) :
  is_order cmp1 -> is_order cmp2 -> is_order (lex cmp1 cmp2).
Proof.
  intros O1 O2. split; unfold lex.
  - intros [a1 a2] [b1 b2]; simpl. destruct (cmp1 a1 b1) eqn:E1; try done.
    intros E2. apply (ord_eq _ O1) in E1. apply (ord_eq _ O2) in E2.
    by subst.
  - intros [a1 a2]; simpl. rewrite (ord_refl _ O1). apply (ord_refl _ O2).
  - intros [a1 a2] [b1 b2]; simpl. rewrite (ord_antisym _ O1 a1 b1).
    destruct (cmp1 a1 b1); simpl; try done. apply (ord_antisym _ O2).
  - intros [a1 a2] [b1 b2] [c1 c2]; simpl.
    destruct (cmp1 a1 b1) eqn:E1; try done.
    + apply (ord_eq _ O1) in E1. subst b1.
      destruct (cmp1 a1 c1) eqn:E2; try done.
      apply (ord_lt_trans _ O2).
    + destruct (cmp1 b1 c1) eqn:E2; try done.
      * apply (ord_eq _ O1) in E2. subst c1. by rewrite E1.
      * by rewrite (ord_lt_trans _ O1 _ _ _ E1 E2).
Qed.

Lemma N_compare_is_order : is_order N.compare.
Proof.
  split.
  - intros a b. apply N.compare_eq.
  - apply N.compare_refl.
  - intros a b. apply N.compare_antisym.
  - intros a b c. rewrite !N.compare_lt_iff. lia.
Qed.

Lemma Z_compare_is_order : is_order Z.compare.
Proof.
  split.
  - intros a b. apply Z.compare_eq.
  - apply Z.compare_refl.
  - intros a b. apply Z.compare_antisym.
  - intros a b c. rewrite !Z.compare_lt_iff. lia.
Qed.

Lemma pystr_compare_is_order : is_order PyStr.compare.
Proof.
  split.
  - induction a as [|x a IH]; intros [|y b]; simpl; try done.
    destruct (N.compare_spec x y); try done.
    intros E. subst. f_equal. by apply IH.
  - induction a as [|x a IH]; simpl; [done|]. by rewrite N.compare_refl.
  - induction a as [|x a IH]; intros [|y b]; simpl; try done.
    rewrite (N.compare_antisym x y).
    destruct (x ?= y)%N; simpl; auto.
  - induction a as [|x a IH]; intros [|y b] [|z c]; simpl; try done.
    destruct (N.compare_spec x y) as [->| |]; try done.
    + destruct (z ?= y)%N eqn:E; rewrite N.compare_antisym, E; simpl;
        try done. apply IH.
    + destruct (N.compare_spec y z) as [->| |]; try done.
      * intros _ _. assert ((x ?= z)%N = Lt) as -> by by apply N.compare_lt_iff.
        done.
      * intros _ _. assert ((x ?= z)%N = Lt) as -> by (apply N.compare_lt_iff; lia).
        done.
Qed.

(** A comparison that is an order makes "not less" a total preorder. *)
Section not_less.

Context {K} (cmp : K -> K -> comparison) (O : is_order cmp).

Lemma not_less_total a b : cmp a b <> Lt \/ cmp b a <> Lt.
Proof.
  rewrite (ord_antisym _ O a b). destruct (cmp a b); simpl; auto.
Qed.

Lemma not_less_trans a b c : cmp a b <> Lt -> cmp b c <> Lt -> cmp a c <> Lt.
Proof.
  intros Hab Hbc Hac.
  destruct (cmp a b) eqn:E; try done.
  - apply (ord_eq _ O) in E. by subst.
  - apply Hbc. apply (ord_lt_trans _ O _ a); [|done].
    rewrite (ord_antisym _ O a b), E. done.
Qed.

Lemma not_less_antisym a b : cmp a b <> Lt -> cmp b a <> Lt -> a = b.
Proof.
  intros Hab Hba. apply (ord_eq _ O).
  rewrite (ord_antisym _ O a b) in Hba. destruct (cmp a b); simpl in *; done.
Qed.

End not_less.

(** ** The order of the log listing *)

Lemma log_key_compare_lex a b :
  log_key_compare a b
  = lex PyStr.compare (lex PyStr.compare Z.compare) (log_key a) (log_key b).
Proof. reflexivity. Qed.

Lemma log_key_is_order :
  is_order (lex PyStr.compare (lex PyStr.compare Z.compare)).
Proof.
  auto using lex_is_order, pystr_compare_is_order, Z_compare_is_order.
Qed.

#[local] Instance log_order_total : Total log_order.
Proof.
  intros a b. unfold log_order. rewrite !log_key_compare_lex.
  apply (not_less_total _ log_key_is_order).
Qed.

#[local] Instance log_order_trans : Transitive log_order.
Proof.
  intros a b c. unfold log_order. rewrite !log_key_compare_lex.
  apply (not_less_trans _ log_key_is_order).
Qed.

(** Two rows that may stand either way round have the same id. *)
Lemma log_order_same_id a b : log_order a b -> log_order b a -> id a = id b.
Proof.
  unfold log_order. rewrite !log_key_compare_lex. intros Hab Hba.
  pose proof (not_less_antisym _ log_key_is_order _ _ Hab Hba) as E.
  unfold log_key in E. congruence.
Qed.

(** [log_order a b] spelled out: a later date, or the same date and a
    later time, or the same date and time and an id that is not smaller. *)
Lemma log_order_spec a b :
  log_order a b <->
  PyStr.compare (travel_date a) (travel_date b) = Gt
  \/ (travel_date a = travel_date b
      /\ (PyStr.compare (travel_time a) (travel_time b) = Gt
          \/ (travel_time a = travel_time b /\ id b <= id a))).
Proof.
  unfold log_order, log_key_compare.
  pose proof (ord_eq _ pystr_compare_is_order) as Heq.
  pose proof (ord_refl _ pystr_compare_is_order) as Hrefl.
  destruct (PyStr.compare (travel_date a) (travel_date b)) eqn:Ed.
  - apply Heq in Ed.
    destruct (PyStr.compare (travel_time a) (travel_time b)) eqn:Et.
    + apply Heq in Et. rewrite Z.compare_lt_iff. split.
      * intros H. right. split; [done|]. right. split; [done|]. lia.
      * intros [H|[_ [H|[_ H]]]]; [done|done|lia].
    + split; [done|]. intros [H|[_ [H|[H _]]]]; [done|done|].
      rewrite H, Hrefl in Et. done.
    + split; [|done]. intros _. right. split; [done|]. by left.
  - split; [done|]. intros [H|[H _]]; [done|].
    rewrite H, Hrefl in Ed. done.
  - split; [|done]. intros _. by left.
Qed.

(** The primary key: an id names one row. *)
Lemma primary_key (t : list CommuteLog) a b :
  NoDup (id <$> t) -> a ∈ t -> b ∈ t -> id a = id b -> a = b.
Proof.
  intros Hnd Ha Hb E.
  apply list_elem_of_lookup in Ha as [i Hi]. apply list_elem_of_lookup in Hb as [j Hj].
  assert (i = j) as ->.
  { eapply NoDup_lookup; [done| |];
      rewrite list_lookup_fmap; [by rewrite Hi|by rewrite Hj, E]. }
  congruence.
Qed.

Lemma sql_limit_length {A} (n : Z) (l : list A) :
  0 <= n -> Z.of_nat (length (sql_limit n l)) <= n.
Proof.
  intros Hn. unfold sql_limit. destruct (Z.ltb_spec n 0); [lia|].
  rewrite length_take. lia.
Qed.

Lemma sql_limit_prefix {A} (n : Z) (l : list A) :
  exists rest, l = sql_limit n l ++ rest.
Proof.
  unfold sql_limit. destruct (n <? 0).
  - exists []. by rewrite app_nil_r.
  - exists (drop (Z.to_nat n) l). by rewrite take_drop.
Qed.

(** ** The primary key holds in every store the script builds *)

Lemma next_id_above (t : list CommuteLog) r : r ∈ t -> id r < next_id t.
Proof.
  unfold next_id. induction t as [|x t IH]; intros Hin; [by inv Hin|].
  rewrite fmap_cons. cbn [foldr].
  inv Hin; [lia|]. specialize (IH ltac:(done)). lia.
Qed.

Lemma init_keeps_primary_key (d : database) :
  NoDup (id <$> default [] d) ->
  NoDup (id <$> default [] (init_commute_db d)).
Proof. by destruct d. Qed.

Lemma insert_keeps_primary_key now d t n r m (db : database) :
  NoDup (id <$> default [] db) ->
  NoDup (id <$> default [] (insert_commute_log now d t n r m db).2).
Proof.
  destruct db as [rows|]; simpl; [|done]. intros Hnd.
  rewrite fmap_app. simpl. apply NoDup_app. split_and!; [done| |].
  - intros i Hi Hi'. apply list_elem_of_singleton in Hi'. subst i.
    apply list_elem_of_fmap in Hi as [x [Hx Hin]].
    apply next_id_above in Hin. lia.
  - apply NoDup_singleton.
Qed.

(** ** Listing the log *)


(** C2, as stated, fails: the limit goes to [LIMIT ?] as it is, and SQLite
    takes a negative limit as no limit.  With one row stored,
    [fetch_commute_logs(-1)] returns that row, which is more than -1
    rows. *)
Lemma fetch_commute_logs_negative_limit :
  fetch_commute_logs (Some (-1)) (Some [one_row]) = Ok [log_dict one_row]
  /\ ~ (Z.of_nat (length [log_dict one_row]) <= -1).
Proof. split; [reflexivity|simpl; lia]. Qed.

Lemma int64_spec (z : Z) : int64 z = true <-> - 2 ^ 63 <= z < 2 ^ 63.
Proof.
  unfold int64. rewrite andb_true_iff, Z.leb_le, Z.ltb_lt. done.
Qed.

Lemma int64_false (z : Z) : int64 z = false <-> z < - 2 ^ 63 \/ 2 ^ 63 <= z.
Proof.
  unfold int64. rewrite andb_false_iff, Z.leb_gt, Z.ltb_ge. done.
Qed.

(** With the primary key, the order of the listing leaves one arrangement
    of the table only. *)
Lemma merge_sort_log_unique (t l : list CommuteLog) :
  NoDup (id <$> t) -> l ≡ₚ t -> StronglySorted log_order l ->
  merge_sort log_order t = l.
Proof.
  intros Hnd Hperm Hsorted.
  apply StronglySorted_unique_strong with log_order.
  - intros a b Ha Hb Hab Hba. apply (primary_key t); [done| | |].
    + by rewrite <-(merge_sort_Permutation log_order t).
    + by rewrite <-Hperm.
    + by apply log_order_same_id.
  - apply StronglySorted_merge_sort; apply _.
  - done.
  - by rewrite merge_sort_Permutation.
Qed.

(** C2, amended: for every table (ids unique, the primary key) and every
    limit [n] with [0 <= n <= 2^63 - 1], [fetch_commute_logs(n)] returns
    the dicts of at most [n] rows; they are the first rows of the table put
    in the order travel_date descending, travel_time descending, id
    descending; every row left out comes after every row returned; and the
    result does not depend on how the engine sorts, since any arrangement
    of the table in that order is the same list, so repeated calls on the
    same table return the same sequence.  A negative limit down to [-2^63]
    is no limit: all rows come back, in that order.  A limit outside the
    signed 64-bit range raises [OverflowError].  Leaving the limit out
    means 50.  The last part spells the order out. *)
Theorem fetch_commute_logs_recent (t : list CommuteLog) (n : Z) :
  NoDup (id <$> t) ->
  (0 <= n < 2 ^ 63 ->
   exists picked rest,
     fetch_commute_logs (Some n) (Some t) = Ok (log_dict <$> picked)
     /\ Z.of_nat (length (log_dict <$> picked)) <= n
     /\ StronglySorted log_order (picked ++ rest)
     /\ picked ++ rest ≡ₚ t
     /\ (rest <> [] -> Z.of_nat (length picked) = n)
     /\ (forall l, l ≡ₚ t -> StronglySorted log_order l ->
           fetch_commute_logs (Some n) (Some t)
           = Ok (log_dict <$> sql_limit n l)))
  /\ (- 2 ^ 63 <= n < 0 ->
      exists rows,
        fetch_commute_logs (Some n) (Some t) = Ok (log_dict <$> rows)
        /\ StronglySorted log_order rows
        /\ rows ≡ₚ t
        /\ (forall l, l ≡ₚ t -> StronglySorted log_order l -> rows = l))
  /\ (n < - 2 ^ 63 \/ 2 ^ 63 <= n ->
      fetch_commute_logs (Some n) (Some t) = Raise OverflowError)
  /\ fetch_commute_logs None (Some t) = fetch_commute_logs (Some 50) (Some t)
  /\ (forall a b,
        log_order a b <->
        PyStr.compare (travel_date a) (travel_date b) = Gt
        \/ (travel_date a = travel_date b
            /\ (PyStr.compare (travel_time a) (travel_time b) = Gt
                \/ (travel_time a = travel_time b /\ id b <= id a)))).
Proof.
  intros Hnd. split_and!.
  - intros Hn.
    assert (fetch_commute_logs (Some n) (Some t)
            = Ok (log_dict <$> select_commute_logs n t)) as Hfetch.
    { unfold fetch_commute_logs. cbn [default from_option Datatypes.id].
      unfold default. cbn [from_option Datatypes.id].
      by rewrite (proj2 (int64_spec n)) by lia. }
    destruct (sql_limit_prefix n (merge_sort log_order t)) as [rest Hrest].
    exists (select_commute_logs n t), rest. unfold select_commute_logs in *.
    split_and!.
    + done.
    + rewrite length_fmap. apply sql_limit_length. lia.
    + rewrite <-Hrest. apply StronglySorted_merge_sort; apply _.
    + rewrite <-Hrest. apply merge_sort_Permutation.
    + intros Hne. unfold sql_limit in *. destruct (Z.ltb_spec n 0); [lia|].
      rewrite length_take.
      destruct (decide (Z.to_nat n <= length (merge_sort log_order t))%nat);
        [lia|].
      rewrite take_ge in Hrest by lia.
      apply (f_equal length) in Hrest. rewrite length_app in Hrest.
      destruct rest; [done|simpl in Hrest; lia].
    + intros l Hperm Hsorted. rewrite Hfetch.
      by rewrite (merge_sort_log_unique t l).
  - intros Hn. exists (merge_sort log_order t). split_and!.
    + unfold fetch_commute_logs. unfold default.
      cbn [from_option Datatypes.id].
      rewrite (proj2 (int64_spec n)) by lia.
      unfold select_commute_logs, sql_limit.
      by rewrite (proj2 (Z.ltb_lt n 0)) by lia.
    + apply StronglySorted_merge_sort; apply _.
    + apply merge_sort_Permutation.
    + intros l Hperm Hsorted. by apply merge_sort_log_unique.
  - intros Hn. unfold fetch_commute_logs. unfold default.
    cbn [from_option Datatypes.id].
    by rewrite (proj2 (int64_false n)).
  - done.
  - apply log_order_spec.
Qed.

Lemma fetch_commute_logs_recent_witness :
  NoDup (id <$> sample_table)
  /\ 0 <= 2 < 2 ^ 63
  /\ exists picked rest,
    fetch_commute_logs (Some 2) (Some sample_table) = Ok (log_dict <$> picked)
    /\ Z.of_nat (length (log_dict <$> picked)) <= 2
    /\ StronglySorted log_order (picked ++ rest)
    /\ picked ++ rest ≡ₚ sample_table
    /\ (rest <> [] -> Z.of_nat (length picked) = 2)
    /\ (forall l, l ≡ₚ sample_table -> StronglySorted log_order l ->
          fetch_commute_logs (Some 2) (Some sample_table)
          = Ok (log_dict <$> sql_limit 2 l)).
Proof.
  assert (NoDup (id <$> sample_table)) as Hnd.
  { apply (bool_decide_unpack _). vm_compute. exact I. }
  assert (0 <= 2 < 2 ^ 63) as Hn by lia.
  split; [exact Hnd|]. split; [exact Hn|].
  exact (proj1 (fetch_commute_logs_recent sample_table 2 Hnd) Hn).
Defined.

Example fetch_commute_logs_sample :
  id <$> select_commute_logs 2 sample_table = [3; 2]
  /\ id <$> select_commute_logs 50 sample_table = [3; 2; 1].
Proof. split; vm_compute; reflexivity. Qed.

(** ** Route statistics *)

#[local] Instance summary_order_total : Total summary_order.
Proof. intros a b. unfold summary_order. lia. Qed.

#[local] Instance summary_order_trans : Transitive summary_order.
Proof. intros a b c. unfold summary_order. lia. Qed.

(** A running sum that stays in range is the sum. *)
Lemma sum_from_exact (l : list Z) (acc z : Z) :
  sum_from acc l = Some z -> z = acc + foldr Z.add 0 l.
Proof.
  revert acc. induction l as [|x l IH]; intros acc; cbn [sum_from foldr].
  - intros [= <-]. lia.
  - destruct (int64 (acc + x)); [|done]. intros H. apply IH in H. lia.
Qed.

Lemma sum_from_in_range (l : list Z) (acc z : Z) :
  int64 acc = true -> sum_from acc l = Some z -> int64 z = true.
Proof.
  revert acc. induction l as [|x l IH]; intros acc Hacc; cbn [sum_from].
  - by intros [= <-].
  - destruct (int64 (acc + x)) eqn:Hstep; [|done]. by apply IH.
Qed.

(** Values between 0 and [B], few enough of them, never overflow. *)
Lemma sum_from_bounded (B : Z) (l : list Z) (acc : Z) :
  Forall (fun x => 0 <= x <= B) l -> 0 <= acc ->
  acc + Z.of_nat (length l) * B < 2 ^ 63 ->
  is_Some (sum_from acc l).
Proof.
  revert acc. induction l as [|x l IH]; intros acc Hall Hacc Hroom;
    cbn [sum_from]; [done|].
  apply Forall_cons in Hall as [Hx Hall].
  cbn [length] in Hroom. rewrite Nat2Z.inj_succ, Z.mul_succ_l in Hroom.
  assert (0 <= Z.of_nat (length l) * B) by (apply Z.mul_nonneg_nonneg; lia).
  rewrite (proj2 (int64_spec (acc + x))) by lia.
  apply IH; [done|lia|lia].
Qed.


Lemma aggregate_Some (round_avg : list Z -> double)
    (g : pystr * list CommuteLog) (s : RouteSummary) :
  aggregate round_avg g = Some s ->
  s = exact_record round_avg g /\ int64 (total_minutes s) = true.
Proof.
  unfold aggregate, sql_sum.
  destruct (sum_from 0 (duration_minutes <$> g.2)) as [total|] eqn:Hsum;
    [|done].
  intros [= <-]. cbn [total_minutes]. split.
  - unfold exact_record. f_equal. by apply sum_from_exact in Hsum.
  - by eapply (sum_from_in_range _ 0); [|exact Hsum].
Qed.

Lemma aggregate_is_Some (round_avg : list Z -> double)
    (g : pystr * list CommuteLog) :
  is_Some (aggregate round_avg g) <-> is_Some (sql_sum g.2).
Proof.
  unfold aggregate. destruct (sql_sum g.2); split; intros [? ?]; by eauto.
Qed.

Lemma mapM_aggregate (round_avg : list Z -> double)
    (l : list (pystr * list CommuteLog)) :
  Forall (fun g => is_Some (sql_sum g.2)) l ->
  mapM (aggregate round_avg) l = Some (exact_record round_avg <$> l).
Proof.
  intros Hall. apply mapM_Some_2. induction Hall as [|g l Hg _ IH].
  - constructor.
  - rewrite fmap_cons. constructor; [|done].
    apply (aggregate_is_Some round_avg) in Hg as [s Hs].
    rewrite Hs. f_equal. by apply aggregate_Some in Hs as [-> _].
Qed.

(** Without overflow the query gives the records of the groups, in order;
    with an overflow in some route it fails. *)
Lemma fetch_commute_summary_Ok (round_avg : list Z -> double)
    (t : list CommuteLog) :
  summable t ->
  fetch_commute_summary round_avg (Some t)
  = Ok (merge_sort summary_order
          (exact_record round_avg <$> group_by_route t)).
Proof.
  intros Hsum. unfold fetch_commute_summary.
  by rewrite (mapM_aggregate round_avg _ Hsum).
Qed.

Lemma fetch_commute_summary_Raise (round_avg : list Z -> double)
    (t : list CommuteLog) :
  ~ summable t ->
  fetch_commute_summary round_avg (Some t) = Raise OperationalError.
Proof.
  intros Hnot. unfold fetch_commute_summary.
  destruct (mapM (aggregate round_avg) (group_by_route t)) eqn:E; [|done].
  exfalso. apply Hnot. unfold summable.
  assert (is_Some (mapM (aggregate round_avg) (group_by_route t))) as H
    by (by rewrite E).
  apply mapM_is_Some_1 in H. eapply Forall_impl; [exact H|].
  intros g Hg. by apply (aggregate_is_Some round_avg).
Qed.

(** Tables that came in through the form, with at most 1024 rows, never
    overflow. *)
Lemma form_table_summable (t : list CommuteLog) :
  Forall (fun r => 0 <= duration_minutes r <= 2 ^ 53 - 1) t ->
  (length t <= 1024)%nat ->
  summable t.
Proof.
  intros Hall Hlen. unfold summable, group_by_route.
  apply Forall_fmap, Forall_forall. intros name _. cbn [snd].
  unfold sql_sum. apply (sum_from_bounded (2 ^ 53 - 1)).
  - apply Forall_fmap, Forall_forall. intros r Hr.
    apply list_elem_of_filter in Hr as [_ Hr].
    rewrite Forall_forall in Hall. by apply Hall.
  - done.
  - rewrite length_fmap.
    pose proof (length_filter (fun r => Store.route_name r = name) t).
    cbn [snd]. lia.
Qed.




(** The sample table of the specification and its statistics. *)
Example fetch_commute_summary_sample :
  fetch_commute_summary stub_round_avg (Some sample_table)
  = Ok [ {| Summary.route_name := py "RouteA"; trips := 2;
            total_minutes := 80; avg_minutes := stub_round_avg [30; 50] |};
         {| Summary.route_name := py "RouteB"; trips := 1;
            total_minutes := 20; avg_minutes := stub_round_avg [20] |} ].
Proof. vm_compute. reflexivity. Qed.




(** ** CSV export *)

Lemma csv_field_sanitize (log : rowdict) (col : pystr) :
  csv_field log col
  = (sanitize <$> py_str (default (SqlText []) (log !! col))).
Proof.
  unfold csv_field, replace.
  generalize (py_str (default (SqlText []) (log !! col))). intros s.
  change (@map N N) with (@fmap list _ N N).
  rewrite <-list_fmap_compose. apply list_fmap_ext. intros _ c _. simpl.
  unfold sanitize, NEWLINE, COMMA, SPACE.
  destruct (decide (c = 10%N \/ c = 44%N)) as [[->| ->]|Hn];
    [reflexivity|reflexivity|].
  destruct (N.eqb_spec c 10); [tauto|].
  destruct (N.eqb_spec c 44); [tauto|done].
Qed.

Lemma csv_field_clean (log : rowdict) (col : pystr) :
  (NEWLINE ∉ csv_field log col) /\ (COMMA ∉ csv_field log col).
Proof.
  unfold csv_field. split.
  - apply replace_keeps_out; [done|]. by apply replace_removes.
  - by apply replace_removes.
Qed.

Lemma csv_line_fields (log : rowdict) :
  split_on COMMA (csv_line log) = csv_field log <$> CSV_HEADER.
Proof.
  unfold csv_line. apply split_on_join; [done|].
  apply Forall_fmap, Forall_forall. intros col _. apply csv_field_clean.
Qed.

Lemma csv_line_one_line (log : rowdict) : NEWLINE ∉ csv_line log.
Proof.
  unfold csv_line. apply join_no_sep.
  - intros H. apply list_elem_of_singleton in H. discriminate.
  - apply Forall_fmap, Forall_forall. intros col _. apply csv_field_clean.
Qed.

Lemma header_line_one_line : NEWLINE ∉ join [COMMA] CSV_HEADER.
Proof. apply (bool_decide_unpack _). vm_compute. exact I. Qed.

Lemma build_csv_lines (logs : list rowdict) :
  split_on NEWLINE (build_csv logs)
  = join [COMMA] CSV_HEADER :: (csv_line <$> logs).
Proof.
  unfold build_csv. apply split_on_join; [done|].
  apply Forall_cons. split; [apply header_line_one_line|].
  apply Forall_fmap, Forall_forall. intros log _. apply csv_line_one_line.
Qed.

(** C4: every field that [build_csv] writes is the text of the value with
    each newline and each comma turned into one space, nothing else
    changed (same length, no quoting), so no field holds a newline or a
    comma, and the fields of a row's line, cut at the commas, are these
    sanitized values in header order.  For notes ["a,b"], newline, ["c"]
    the notes field is ["a b c"]. *)
Theorem build_csv_sanitizes (log : rowdict) (col : pystr) :
  csv_field log col
    = (sanitize <$> py_str (default (SqlText []) (log !! col)))
  /\ length (csv_field log col)
     = length (py_str (default (SqlText []) (log !! col)))
  /\ (NEWLINE ∉ csv_field log col)
  /\ (COMMA ∉ csv_field log col)
  /\ split_on NEWLINE (build_csv [log])
     = [join [COMMA] CSV_HEADER; join [COMMA] (csv_field log <$> CSV_HEADER)]
  /\ split_on COMMA (csv_line log) = csv_field log <$> CSV_HEADER
  /\ csv_field noted_row (py "notes") = py "a b c"
  /\ build_csv [noted_row]
     = py "travel_date,travel_time,route_name,duration_minutes,notes,created_at"
       ++ [NEWLINE]
       ++ py "2024-03-09,07:05,Home,30,a b c,2024-03-09T07:06:10".
Proof.
  split_and!.
  - apply csv_field_sanitize.
  - rewrite csv_field_sanitize. apply length_fmap.
  - apply csv_field_clean.
  - apply csv_field_clean.
  - apply (build_csv_lines [log]).
  - apply csv_line_fields.
  - vm_compute. reflexivity.
  - vm_compute. reflexivity.
Qed.

(** C10: for every list of row dicts, the text of [build_csv] has one
    header line and one line per row, [len(logs) + 1] lines in all; every
    line has exactly five commas, so six fields; and a column that a row
    dict lacks is written as the empty string. *)
Theorem build_csv_shape (logs : list rowdict) :
  split_on NEWLINE (build_csv logs)
    = join [COMMA] CSV_HEADER :: (csv_line <$> logs)
  /\ length (split_on NEWLINE (build_csv logs)) = S (length logs)
  /\ Forall (fun line => count COMMA line = 5%nat
                         /\ length (split_on COMMA line) = 6%nat)
       (split_on NEWLINE (build_csv logs))
  /\ (forall (log : rowdict) col, log !! col = None -> csv_field log col = [])
  /\ (forall (log : rowdict) col, col ∈ CSV_HEADER -> log ∈ logs ->
        log !! col = None ->
        exists k, CSV_HEADER !! k = Some col
                  /\ split_on COMMA (csv_line log) !! k = Some []).
Proof.
  split_and!.
  - apply build_csv_lines.
  - rewrite build_csv_lines. simpl. by rewrite length_fmap.
  - rewrite build_csv_lines. apply Forall_cons. split.
    + split; vm_compute; reflexivity.
    + apply Forall_fmap, Forall_forall. intros log _. simpl.
      assert (length (split_on COMMA (csv_line log)) = 6%nat) as Hlen.
      { by rewrite csv_line_fields. }
      split; [|done]. rewrite split_on_length in Hlen. lia.
  - intros log col Hnone. unfold csv_field. by rewrite Hnone.
  - intros log col Hcol _ Hnone.
    apply list_elem_of_lookup in Hcol as [k Hk]. exists k. split; [done|].
    rewrite csv_line_fields, list_lookup_fmap, Hk. simpl.
    unfold csv_field. by rewrite Hnone.
Qed.

(** ** Session identifiers *)

Lemma nibble_lt (x k : N) : (N.land (N.shiftr x k) 15 < 16)%N.
Proof.
  change 15%N with (N.ones 4). rewrite N.land_ones. by apply N.mod_lt.
Qed.

Lemma hex_digit_is_hex (d : N) : (d < 16)%N -> is_hex (hex_digit d) = true.
Proof.
  intros Hd. unfold hex_digit, is_hex.
  destruct (N.ltb_spec d 10).
  - apply orb_true_iff. left. apply andb_true_iff.
    split; apply N.leb_le; lia.
  - apply orb_true_iff. right. apply andb_true_iff.
    split; apply N.leb_le; lia.
Qed.

(** Whatever the random bytes, the identifier has the shape of a UUID. *)
Lemma uuid_str_format (i : N) : uuid_format (uuid_str i).
Proof.
  split; [reflexivity|].
  intros k c H. unfold uuid_str, hex32 in H. change (py "-") with [45%N] in H.
  cbn [fmap list_fmap seq take drop app] in H.
  do 36 (destruct k as [|k];
    [ injection H as <-;
      first [ reflexivity | apply hex_digit_is_hex, nibble_lt ] | ]).
  discriminate H.
Qed.

(** The version digit of the identifier is 4. *)
Lemma uuid_str_version (random : N) :
  uuid_str (uuid4 random) !! 14%nat = Some 52%N.
Proof.
  unfold uuid_str, hex32. change (py "-") with [45%N].
  cbn [fmap list_fmap seq take drop app lookup list_lookup]. f_equal.
  change (4 * N.of_nat (31 - 12))%N with 76%N.
  assert (N.land (N.shiftr (uuid4 random) 76) 15 = 4%N) as ->; [|done].
  apply N.bits_inj. intros n.
  rewrite N.land_spec, N.shiftr_spec by lia. unfold uuid4.
  rewrite N.lor_spec, N.ldiff_spec.
  destruct (N.testbit 15 n) eqn:E15.
  - assert (n < 4)%N as Hn.
    { destruct (N.ltb_spec n 4); [done|].
      change 15%N with (N.ones 4) in E15.
      rewrite N.ones_spec_high in E15 by done. discriminate. }
    assert (n = 0 \/ n = 1 \/ n = 2 \/ n = 3)%N as [->|[->|[->| ->]]] by lia;
      match goal with
      | |- context [N.testbit (N.lor ?a ?b) ?c] =>
        destruct (N.testbit (N.lor a b) c)
      end; reflexivity.
  - rewrite andb_false_r.
    destruct (N.ltb_spec n 4) as [Hn|Hn].
    + assert (n = 0 \/ n = 1 \/ n = 2 \/ n = 3)%N as [->|[->|[->| ->]]]
        by lia; discriminate E15.
    + symmetry. change 4%N with (N.shiftl 1 2).
      rewrite N.shiftl_spec_high by lia.
      apply N.bits_above_log2. simpl. lia.
Qed.

(** ** Running the chat view *)

Lemma for_each_draw (l : list ChatMessage) (w : World) :
  for_each l (fun message =>
      draw (Ui.st_chat_message (role message) (content message))) w
  = (Ok tt, {| session_state := session_state w; db := db w;
               screen := screen w ++ history_events l |}).
Proof.
  revert w. induction l as [|m l IH]; intros [s d scr]; simpl.
  - unfold ret. by rewrite app_nil_r.
  - unfold bind at 1. simpl. rewrite IH. simpl.
    by rewrite <-app_assoc.
Qed.

Ltac run_script :=
  cbn -[py for_each send_message_to_llm generate_session_id
        fetch_commute_logs fetch_commute_summary insert_commute_log
        build_csv strip date_isoformat strftime_HM].

(** One run of the chat view with a message typed in: what is drawn, and
    what the session holds afterwards, by how the webhook call ends. *)
Lemma main_chat_submit (env : Env) (url : pystr) (w : World)
    (user_text : pystr) (f : FormInput) :
  truthy user_text = true ->
  let msgs := default [] (messages (session_state w)) in
  let sid :=
    default (generate_session_id env) (session_id (session_state w)) in
  let user := {| role := USER; content := PyStr user_text |} in
  let drawn :=
    screen w
    ++ [Ui.st_sidebar_title (py "Mode"); Ui.st_title (py "Chat with LLM")]
    ++ history_events msgs ++ [Ui.st_chat_message USER (PyStr user_text)] in
  main env url {| mode := LLM_Chat; user_input := Some user_text; form := f |}
    w
  = match send_message_to_llm env url sid user_text with
    | Ok reply =>
      (Ok tt,
       {| session_state :=
            {| messages :=
                 Some (msgs ++ [user; {| role := ASSISTANT;
                                         content := reply |}]);
               session_id := Some sid |};
          db := db w;
          screen := drawn ++ [Ui.st_chat_message ASSISTANT reply] |})
    | Raise e =>
      (Raise e,
       {| session_state :=
            {| messages := Some (msgs ++ [user]); session_id := Some sid |};
          db := db w;
          screen := drawn |})
    end.
Proof.
  intros Htext. destruct w as [[m s] d scr].
  unfold main, initialize, render_history, submit. cbn [mode user_input].
  rewrite Htext.
  unfold session_messages, session_session_id, append_message, bind, draw,
    get_session, put_session, ret, lift.
  destruct m as [m|], s as [s|]; run_script.
  all: rewrite for_each_draw; run_script.
  all: destruct (send_message_to_llm _ _ _ _); run_script.
  all: unfold USER, ASSISTANT, history_events.
  all: rewrite <-?app_assoc; cbn [app]; rewrite <-?app_assoc; reflexivity.
Qed.

Lemma main_chat_idle (env : Env) (url : pystr) (w : World) (f : FormInput) :
  main env url {| mode := LLM_Chat; user_input := None; form := f |} w
  = (Ok tt,
     {| session_state :=
          {| messages := Some (default [] (messages (session_state w)));
             session_id :=
               Some (default (generate_session_id env)
                       (session_id (session_state w))) |};
        db := db w;
        screen :=
          screen w
          ++ [Ui.st_sidebar_title (py "Mode");
              Ui.st_title (py "Chat with LLM")]
          ++ history_events (default [] (messages (session_state w))) |}).
Proof.
  destruct w as [[m s] d scr].
  unfold main, initialize, render_history, submit. cbn [mode user_input].
  unfold session_messages, session_session_id, append_message, bind, draw,
    get_session, put_session, ret, lift.
  destruct m as [m|], s as [s|]; run_script.
  all: rewrite for_each_draw; run_script.
  all: rewrite <-?app_assoc; cbn [app]; rewrite <-?app_assoc; reflexivity.
Qed.

Lemma send_message_non_200 (env : Env) (url sid msg : pystr) (r : Response) :
  post env url {| sessionId := sid; chatInput := msg |} = Ok r ->
  status_code r <> 200 ->
  send_message_to_llm env url sid msg
  = Ok (PyStr (py "Error: " ++ str_int (status_code r) ++ py " - " ++ text r)).
Proof.
  intros Hpost Hstatus. unfold send_message_to_llm. rewrite Hpost.
  destruct (Z.eqb_spec (status_code r) 200); [done|reflexivity].
Qed.

(** C3: when the webhook answers a submitted message with a status [S]
    other than 200 and body [B], the run ends without an exception, the
    reply is exactly ["Error: S - B"], and the transcript is the earlier
    messages, then the user's message, then the reply as an assistant
    message, which is also the last thing drawn. *)
Theorem main_webhook_error (env : Env) (url : pystr) (w : World)
    (user_text : pystr) (f : FormInput) (r : Response) :
  truthy user_text = true ->
  post env url
    {| sessionId :=
         default (generate_session_id env) (session_id (session_state w));
       chatInput := user_text |} = Ok r ->
  status_code r <> 200 ->
  exists w',
    main env url
      {| mode := LLM_Chat; user_input := Some user_text; form := f |} w
    = (Ok tt, w')
    /\ messages (session_state w')
       = Some (default [] (messages (session_state w))
               ++ [ {| role := py "user"; content := PyStr user_text |};
                    {| role := py "assistant";
                       content :=
                         PyStr (py "Error: " ++ str_int (status_code r)
                                ++ py " - " ++ text r) |} ])
    /\ last (screen w')
       = Some (Ui.st_chat_message (py "assistant")
                 (PyStr (py "Error: " ++ str_int (status_code r)
                         ++ py " - " ++ text r))).
Proof.
  intros Htext Hpost Hstatus.
  rewrite main_chat_submit by done. cbv zeta.
  rewrite (send_message_non_200 _ _ _ _ _ Hpost Hstatus).
  eexists. split; [reflexivity|]. split; [reflexivity|].
  cbn [screen]. apply last_snoc.
Qed.

(** The scenario of the specification: a stub that answers HTTP 500 with
    body ["internal error"], and the message ["hi"]. *)
Lemma main_webhook_error_witness :
  truthy (py "hi") = true
  /\ status_code internal_error <> 200
  /\ exists w',
    main (stub_env internal_error) SAMPLE_URL (chat (py "hi")) fresh_world
    = (Ok tt, w')
    /\ messages (session_state w')
       = Some [ {| role := py "user"; content := PyStr (py "hi") |};
                {| role := py "assistant";
                   content := PyStr (py "Error: 500 - internal error") |} ]
    /\ last (screen w')
       = Some (Ui.st_chat_message (py "assistant")
                 (PyStr (py "Error: 500 - internal error"))).
Proof.
  split; [reflexivity|]. split; [discriminate|].
  exact (main_webhook_error (stub_env internal_error) SAMPLE_URL fresh_world
           (py "hi") idle_form internal_error eq_refl eq_refl
           ltac:(discriminate)).
Defined.

Lemma send_message_200 (env : Env) (url sid msg : pystr) (r : Response)
    (items : list (pystr * pyval)) (v : pyval) :
  post env url {| sessionId := sid; chatInput := msg |} = Ok r ->
  status_code r = 200 ->
  json r = Some (PyDict items) ->
  dict_lookup (py "output") items = Some v ->
  send_message_to_llm env url sid msg = Ok v.
Proof.
  intros Hpost Hstatus Hjson Hout. unfold send_message_to_llm.
  rewrite Hpost, Hstatus, Hjson. simpl. by rewrite Hout.
Qed.

(** C7, as stated, fails: the webhook call is not guarded.  When the
    webhook answers HTTP 200 with the JSON body [{}], reading ["output"]
    raises [KeyError] after the user's message has been appended: the run
    ends in the exception and the transcript has grown by one message, not
    two. *)
Lemma main_submit_missing_output :
  main (stub_env empty_object) SAMPLE_URL (chat (py "hi")) fresh_world
  = (Raise KeyError,
     {| session_state :=
          {| messages :=
               Some [ {| role := py "user"; content := PyStr (py "hi") |} ];
             session_id := Some (generate_session_id (stub_env empty_object))
          |};
        db := None;
        screen := [Ui.st_sidebar_title (py "Mode");
                   Ui.st_title (py "Chat with LLM");
                   Ui.st_chat_message (py "user") (PyStr (py "hi"))] |}).
Proof. vm_compute. reflexivity. Qed.

(** C7, amended: for every non-empty user_text, the run first appends the
    user's message to the session's messages and then calls the webhook
    with the session's id and the text.  If the call yields a reply (any
    status other than 200, or status 200 with a JSON object that has an
    [output] field, whose value is then the reply), the run ends normally
    and the transcript is the earlier messages, the user's message and the
    assistant's message with that reply, in this order: two more messages.
    If the call raises, the exception leaves the run and the transcript is
    the earlier messages and the user's message.  Either way the earlier
    messages and the session id are as before. *)
Theorem main_submit_transcript (env : Env) (url : pystr) (w : World)
    (user_text : pystr) (f : FormInput) :
  truthy user_text = true ->
  let msgs := default [] (messages (session_state w)) in
  let sid :=
    default (generate_session_id env) (session_id (session_state w)) in
  let user := {| role := py "user"; content := PyStr user_text |} in
  let run :=
    main env url
      {| mode := LLM_Chat; user_input := Some user_text; form := f |} w in
  match send_message_to_llm env url sid user_text with
  | Ok reply =>
    run.1 = Ok tt
    /\ messages (session_state run.2)
       = Some (msgs ++ [user; {| role := py "assistant"; content := reply |}])
  | Raise e =>
    run.1 = Raise e /\ messages (session_state run.2) = Some (msgs ++ [user])
  end
  /\ session_id (session_state run.2) = Some sid
  /\ db run.2 = db w
  /\ (forall r items v,
        post env url {| sessionId := sid; chatInput := user_text |} = Ok r ->
        status_code r = 200 ->
        json r = Some (PyDict items) ->
        dict_lookup (py "output") items = Some v ->
        run.1 = Ok tt
        /\ messages (session_state run.2)
           = Some (msgs ++ [user; {| role := py "assistant"; content := v |}])).
Proof.
  intros Htext. cbv zeta. rewrite main_chat_submit by done. cbv zeta.
  split_and!.
  - destruct (send_message_to_llm _ _ _ _); by split.
  - by destruct (send_message_to_llm _ _ _ _).
  - by destruct (send_message_to_llm _ _ _ _).
  - intros r items v Hpost Hstatus Hjson Hout.
    rewrite (send_message_200 _ _ _ _ _ _ _ Hpost Hstatus Hjson Hout).
    by split.
Qed.

(** A webhook that answers HTTP 200 with an [output] of ["hello"]. *)
Lemma main_submit_transcript_witness :
  truthy (py "hi") = true
  /\ (main (stub_env hello_object) SAMPLE_URL (chat (py "hi")) fresh_world).1
     = Ok tt
  /\ messages
       (session_state
          (main (stub_env hello_object) SAMPLE_URL (chat (py "hi"))
             fresh_world).2)
     = Some [ {| role := py "user"; content := PyStr (py "hi") |};
              {| role := py "assistant"; content := PyStr (py "hello") |} ].
Proof.
  split; [reflexivity|].
  pose proof (main_submit_transcript (stub_env hello_object) SAMPLE_URL
                fresh_world (py "hi") idle_form eq_refl) as H.
  cbv zeta in H. destruct H as [H _]. exact H.
Defined.

(** C9: the initialization of the chat view never faults; it gives a
    session without messages an empty list and a session without an id a
    new one, which has the shape of a UUID (version 4); it leaves messages
    and an id that are already there as they are; so on a session it has
    prepared, a further initialization, whatever its random bytes, changes
    nothing, and so does a whole further run of the chat view with no
    input, apart from what it draws. *)
Theorem initialize_idempotent (env env' : Env) (w : World) :
  let w1 := (initialize env w).2 in
  (initialize env w).1 = Ok tt
  /\ messages (session_state w1)
     = Some (default [] (messages (session_state w)))
  /\ session_id (session_state w1)
     = Some (default (generate_session_id env) (session_id (session_state w)))
  /\ db w1 = db w
  /\ screen w1 = screen w
  /\ uuid_format (generate_session_id env)
  /\ generate_session_id env !! 14%nat = Some 52%N
  /\ initialize env' w1 = (Ok tt, w1)
  /\ (forall url f,
        let run :=
          main env' url {| mode := LLM_Chat; user_input := None; form := f |}
            w1 in
        run.1 = Ok tt /\ session_state run.2 = session_state w1).
Proof.
  destruct w as [[m s] d scr]. cbv zeta.
  split_and!.
  - by destruct m, s.
  - by destruct m, s.
  - by destruct m, s.
  - by destruct m, s.
  - by destruct m, s.
  - apply uuid_str_format.
  - apply uuid_str_version.
  - by destruct m, s.
  - intros url f. rewrite main_chat_idle. by destruct m, s.
Qed.

Example initialize_first_render :
  session_state (initialize (stub_env internal_error) fresh_world).2
  = {| messages := Some [];
       session_id := Some (py "00000000-0000-4000-8000-000000000000") |}.
Proof. vm_compute. reflexivity. Qed.

(** ** Running the commute view *)

(** The [if submitted:] block on a database that has its table. *)
Lemma submit_entry_run (env : Env) (f : FormInput) (w : World)
    (t : list CommuteLog) :
  db w = Some t ->
  submit_entry env f w
  = (Ok tt,
     if submitted f then
       if truthy (strip (form_route_name f)) then
         {| session_state := session_state w;
            db := Some (t ++ [new_row env f t]);
            screen := screen w ++ [Ui.st_success MSG_SAVED] |}
       else
         {| session_state := session_state w; db := db w;
            screen := screen w ++ [Ui.st_warning MSG_ROUTE_REQUIRED] |}
     else w).
Proof.
  intros Hdb. destruct w as [s d scr]. simpl in Hdb. subst d.
  unfold submit_entry. destruct (submitted f); [|done].
  destruct (truthy (strip (form_route_name f))); reflexivity.
Qed.

(** The limit of the view is in range. *)
Lemma fetch_commute_logs_in_range (n : Z) (t : list CommuteLog) :
  - 2 ^ 63 <= n < 2 ^ 63 ->
  fetch_commute_logs (Some n) (Some t)
  = Ok (log_dict <$> select_commute_logs n t).
Proof.
  intros Hn. unfold fetch_commute_logs.
  change (default DEFAULT_LIMIT (Some n)) with n.
  by rewrite (proj2 (int64_spec n) Hn).
Qed.

(** The two listings read the table and draw; they change nothing else.
    The first always ends normally, the second ends as the statistics
    query does. *)
Lemma render_recent_logs_run (w : World) (t : list CommuteLog) :
  db w = Some t ->
  exists drawn,
    render_recent_logs w
    = (Ok tt, {| session_state := session_state w; db := db w;
                 screen := screen w ++ drawn |}).
Proof.
  intros Hdb. destruct w as [s d scr]. simpl in Hdb. subst d.
  unfold render_recent_logs.
  do 3 (unfold bind at 1; cbn [draw with_db db session_state screen]).
  rewrite fetch_commute_logs_in_range by lia.
  destruct (log_dict <$> select_commute_logs 50 t) as [|log logs].
  - unfold draw. cbn [db session_state screen].
    eexists. rewrite <-?app_assoc. reflexivity.
  - unfold bind, draw. cbn [db session_state screen].
    eexists. rewrite <-?app_assoc. reflexivity.
Qed.

Lemma render_route_summary_run (env : Env) (w : World)
    (t : list CommuteLog) :
  db w = Some t ->
  exists drawn,
    render_route_summary env w
    = (summary_outcome (sqlite_round_avg env) t,
       {| session_state := session_state w; db := db w;
          screen := screen w ++ drawn |}).
Proof.
  intros Hdb. destruct w as [s d scr]. simpl in Hdb. subst d.
  unfold render_route_summary, summary_outcome.
  do 3 (unfold bind at 1; cbn [draw with_db db session_state screen]).
  destruct (fetch_commute_summary (sqlite_round_avg env) (Some t))
    as [[|record records]|e].
  - unfold draw. cbn [db session_state screen].
    eexists. rewrite <-?app_assoc. reflexivity.
  - unfold draw. cbn [db session_state screen].
    eexists. rewrite <-?app_assoc. reflexivity.
  - eexists. rewrite <-?app_assoc. reflexivity.
Qed.

(** How the view ends: normally when no route's total overflows, with the
    engine's error otherwise. *)
Lemma summary_outcome_Ok (round_avg : list Z -> double)
    (t : list CommuteLog) :
  summable t -> summary_outcome round_avg t = Ok tt.
Proof.
  intros Hsum. unfold summary_outcome.
  by rewrite (fetch_commute_summary_Ok round_avg t Hsum).
Qed.

Lemma summary_outcome_Raise (round_avg : list Z -> double)
    (t : list CommuteLog) :
  ~ summable t -> summary_outcome round_avg t = Raise OperationalError.
Proof.
  intros Hnot. unfold summary_outcome.
  by rewrite (fetch_commute_summary_Raise round_avg t Hnot).
Qed.

(** One run of the commute view: it leaves the session alone, the table
    gains the new row exactly when the form was saved with a route name,
    and the run ends as the statistics query on that table does. *)
Lemma render_commute_tracker_run (env : Env) (f : FormInput) (w : World) :
  let t1 := if submitted f && truthy (strip (form_route_name f))
            then rows_of (db w) ++ [new_row env f (rows_of (db w))]
            else rows_of (db w) in
  exists drawn,
    render_commute_tracker env f w
    = (summary_outcome (sqlite_round_avg env) t1,
       {| session_state := session_state w;
          db := Some t1;
          screen := screen w ++ drawn |}).
Proof.
  destruct w as [s d scr]. unfold render_commute_tracker.
  do 4 (unfold bind at 1; cbn [draw with_db db session_state screen]).
  assert (init_commute_db d = Some (rows_of d)) as -> by by destruct d.
  unfold bind at 1. rewrite (submit_entry_run _ _ _ (rows_of d)) by done.
  cbn [db session_state screen].
  set (t1 := if submitted f && truthy (strip (form_route_name f))
             then rows_of d ++ [new_row env f (rows_of d)] else rows_of d).
  match goal with
  | |- context [(render_recent_logs ;; render_route_summary env) ?w] =>
    assert (exists extra,
              w = {| session_state := s; db := Some t1;
                     screen := scr ++ extra |}) as [extra ->]
  end.
  { subst t1. destruct (submitted f);
      [destruct (truthy (strip (form_route_name f)))|];
      eexists; cbn [andb]; rewrite <-?app_assoc; reflexivity. }
  unfold bind at 1.
  destruct (render_recent_logs_run
              {| session_state := s; db := Some t1; screen := scr ++ extra |}
              t1 eq_refl) as [drawn1 ->].
  cbn [db session_state screen].
  destruct (render_route_summary_run env
              {| session_state := s; db := Some t1;
                 screen := (scr ++ extra) ++ drawn1 |}
              t1 eq_refl) as [drawn2 ->].
  cbn [db session_state screen].
  eexists. rewrite <-?app_assoc. reflexivity.
Qed.

Lemma sample_table_summable : summable sample_table.
Proof.
  apply form_table_summable; [|simpl; lia].
  repeat constructor; simpl; lia.
Qed.

(** C5: when the form is saved with a route name that is empty or all
    white space, so that nothing is left of it after trimming, the save
    block ends normally, draws the warning and nothing else, and does not
    touch the database or the session; over the whole run of the view the
    stored rows are the ones that were there, and the run ends normally
    unless the statistics under the form overflow on those rows. *)
Theorem submit_entry_blank_route (env : Env) (f : FormInput) (w : World) :
  submitted f = true ->
  forallb is_space (form_route_name f) = true ->
  strip (form_route_name f) = []
  /\ submit_entry env f w
     = (Ok tt,
        {| session_state := session_state w; db := db w;
           screen := screen w ++ [Ui.st_warning MSG_ROUTE_REQUIRED] |})
  /\ exists r drawn,
       render_commute_tracker env f w
       = (r,
          {| session_state := session_state w;
             db := Some (rows_of (db w));
             screen := screen w ++ drawn |})
       /\ (summable (rows_of (db w)) -> r = Ok tt)
       /\ (~ summable (rows_of (db w)) -> r = Raise OperationalError).
Proof.
  intros Hsub Hblank. apply strip_nil_iff in Hblank.
  split_and!; [done| |].
  - unfold submit_entry. rewrite Hsub, Hblank. reflexivity.
  - destruct (render_commute_tracker_run env f w) as [drawn Hrun].
    rewrite Hblank in Hrun. cbn [truthy] in Hrun.
    rewrite andb_false_r in Hrun.
    exists (summary_outcome (sqlite_round_avg env) (rows_of (db w))), drawn.
    split_and!; [exact Hrun| |].
    + apply summary_outcome_Ok.
    + apply summary_outcome_Raise.
Qed.

Lemma submit_entry_blank_route_witness :
  submitted (filled_form (py "   ") (py "rain")) = true
  /\ forallb is_space (form_route_name (filled_form (py "   ") (py "rain")))
     = true
  /\ strip (form_route_name (filled_form (py "   ") (py "rain"))) = []
  /\ submit_entry (stub_env internal_error)
       (filled_form (py "   ") (py "rain")) sample_world
     = (Ok tt,
        {| session_state := session_state sample_world;
           db := Some sample_table;
           screen := [Ui.st_warning MSG_ROUTE_REQUIRED] |})
  /\ exists drawn,
       render_commute_tracker (stub_env internal_error)
         (filled_form (py "   ") (py "rain")) sample_world
       = (Ok tt,
          {| session_state := session_state sample_world;
             db := Some sample_table;
             screen := screen sample_world ++ drawn |}).
Proof.
  split; [reflexivity|]. split; [reflexivity|].
  destruct (submit_entry_blank_route (stub_env internal_error)
              (filled_form (py "   ") (py "rain")) sample_world
              eq_refl eq_refl)
    as (Hstrip & Hsave & r & drawn & Hrun & Hok & _).
  split; [exact Hstrip|]. split; [exact Hsave|].
  exists drawn.
  exact (eq_trans Hrun
           (f_equal (fun r => (r, _)) (Hok sample_table_summable))).
Defined.

Lemma isoformat_seconds_length (dt : datetime) :
  length (isoformat_seconds dt) = 19%nat.
Proof. reflexivity. Qed.

Lemma isoformat_seconds_whole (dt : datetime) (us : N) :
  isoformat_seconds (with_microsecond dt us) = isoformat_seconds dt.
Proof. reflexivity. Qed.

(** C8: when the form is saved with a route name that is not empty after
    trimming, the save block ends normally and the table is the old rows,
    as they were, followed by one new row; the run of the whole view
    leaves that table and ends normally unless the statistics under the
    form overflow on it.  Its route_name and notes are the
    trimmed inputs, its date and time are the form's in ISO and HH:MM
    form, its duration is the form's, its id is not one of the old ones,
    and its created_at is the clock reading as YYYY-MM-DDTHH:MM:SS, 19
    characters that do not depend on the microseconds. *)
Theorem submit_entry_inserts (env : Env) (f : FormInput) (w : World) :
  submitted f = true ->
  strip (form_route_name f) <> [] ->
  exists row r drawn,
    render_commute_tracker env f w
    = (r,
       {| session_state := session_state w;
          db := Some (rows_of (db w) ++ [row]);
          screen := screen w ++ drawn |})
    /\ (summable (rows_of (db w) ++ [row]) -> r = Ok tt)
    /\ (~ summable (rows_of (db w) ++ [row]) -> r = Raise OperationalError)
    /\ (forall t, db w = Some t ->
          submit_entry env f w
          = (Ok tt,
             {| session_state := session_state w;
                db := Some (t ++ [row]);
                screen := screen w ++ [Ui.st_success MSG_SAVED] |}))
    /\ Store.route_name row = strip (form_route_name f)
    /\ notes row = Some (strip (form_notes f))
    /\ travel_date row = date_isoformat (form_travel_date f)
    /\ travel_time row = strftime_HM (form_travel_time f)
    /\ duration_minutes row = form_duration_minutes f
    /\ created_at row = isoformat_seconds (now env)
    /\ length (created_at row) = 19%nat
    /\ (forall us,
          isoformat_seconds (with_microsecond (now env) us) = created_at row)
    /\ (id row ∉ id <$> rows_of (db w)).
Proof.
  intros Hsub Hroute.
  assert (truthy (strip (form_route_name f)) = true) as Htruthy.
  { by destruct (strip (form_route_name f)). }
  destruct (render_commute_tracker_run env f w) as [drawn Hrun].
  rewrite Hsub, Htruthy in Hrun. cbn [andb] in Hrun.
  exists (new_row env f (rows_of (db w))),
    (summary_outcome (sqlite_round_avg env)
       (rows_of (db w) ++ [new_row env f (rows_of (db w))])), drawn.
  split_and!; try reflexivity.
  - exact Hrun.
  - apply summary_outcome_Ok.
  - apply summary_outcome_Raise.
  - intros t Ht. rewrite (submit_entry_run _ _ _ t Ht), Hsub, Htruthy.
    by rewrite Ht.
  - intros Hin. apply list_elem_of_fmap in Hin as [r [Hid Hr]].
    apply next_id_above in Hr. simpl in Hid. lia.
Qed.

Lemma submit_entry_inserts_witness :
  submitted (filled_form (py " Home to work ") (py " rain ")) = true
  /\ strip (form_route_name (filled_form (py " Home to work ") (py " rain ")))
     <> []
  /\ exists row drawn,
       render_commute_tracker (stub_env internal_error)
         (filled_form (py " Home to work ") (py " rain ")) sample_world
       = (Ok tt,
          {| session_state := session_state sample_world;
             db := Some (sample_table ++ [row]);
             screen := screen sample_world ++ drawn |})
       /\ Store.route_name row = py "Home to work"
       /\ notes row = Some (py "rain")
       /\ travel_date row = py "2024-03-09"
       /\ travel_time row = py "07:05"
       /\ duration_minutes row = 30
       /\ created_at row = py "2024-03-09T07:06:10".
Proof.
  split; [reflexivity|]. split; [discriminate|].
  destruct (submit_entry_inserts (stub_env internal_error)
              (filled_form (py " Home to work ") (py " rain ")) sample_world
              eq_refl ltac:(discriminate))
    as (row & r & drawn & Hrun & Hok & _ & _ & Hname & Hnotes & Hdate
        & Htime & Hdur & Hcreated & _).
  assert (summable (rows_of (db sample_world) ++ [row])) as Hsum.
  { apply form_table_summable.
    - apply Forall_app. split.
      + repeat constructor; simpl; lia.
      + repeat constructor; rewrite Hdur; simpl; lia.
    - rewrite length_app. simpl. lia. }
  exists row, drawn.
  exact (conj (eq_trans Hrun (f_equal (fun r => (r, _)) (Hok Hsum)))
           (conj Hname (conj Hnotes (conj Hdate (conj Htime
              (conj Hdur Hcreated)))))).
Defined.

Example submit_entry_sample_id :
  id <$> rows_of
           (db (render_commute_tracker (stub_env internal_error)
                  (filled_form (py " Home to work ") (py " rain "))
                  sample_world).2)
  = [1; 2; 3; 4].
Proof. vm_compute. reflexivity. Qed.

(** ** Webhook URL *)

(** C6, as stated, fails: the script does not look for the first line
    that is neither empty nor a comment.  It takes the whole trimmed
    content of the file, and only if that content does not begin with [#].
    With a comment on the first line and the URL on the second (and no
    environment variable) the specification's rule finds the URL, while
    the script finds none and stops.  With the URL on the first line and a
    note below it, the script takes both lines together as the URL. *)
Lemma load_webhook_url_not_first_line :
  spec_load_webhook_url commented_config = Some SAMPLE_URL
  /\ load_webhook_url commented_config = Ok None
  /\ (configure commented_config fresh_world).1 = Ok Stopped
  /\ spec_load_webhook_url two_line_config = Some SAMPLE_URL
  /\ load_webhook_url two_line_config
     = Ok (Some (SAMPLE_URL ++ [NEWLINE] ++ py "# production")).
Proof. repeat split; vm_compute; reflexivity. Qed.

Lemma configure_started (c : Config) (url : pystr) (w : World) :
  load_webhook_url c = Ok (Some url) ->
  url <> [] /\ configure c w = (Ok (Started url), w).
Proof.
  intros Hload.
  assert (truthy url = true) as Hurl.
  { unfold load_webhook_url in Hload.
    destruct (config_txt c) as [|raw|e]; try discriminate.
    - injection Hload as Hload. destruct (environ c) as [u|]; [|done].
      destruct (truthy u) eqn:Hu; by simplify_eq.
    - destruct (truthy (strip raw)) eqn:Hraw; simpl in Hload.
      + destruct (startswith HASH (strip raw)); simpl in Hload.
        * injection Hload as Hload. destruct (environ c) as [u|]; [|done].
          destruct (truthy u) eqn:Hu; by simplify_eq.
        * by simplify_eq.
      + injection Hload as Hload. destruct (environ c) as [u|]; [|done].
        destruct (truthy u) eqn:Hu; by simplify_eq. }
  split; [by destruct url|].
  unfold configure, bind, lift. rewrite Hload, Hurl. reflexivity.
Qed.

(** C6, amended: the URL is the whole content of config.txt with the white
    space around it trimmed, when the file is there and that content is
    not empty and does not begin with [#]; when the file is absent, or its
    trimmed content is empty or begins with [#], the URL is the
    environment variable WEBHOOK_URL if that is set and not empty.  With a
    URL the script goes on to [main] with it; with none it draws the error
    and the setup guidance and stops there, leaving the session and the
    database as they were. *)
Theorem load_webhook_url_resolution (c : Config) (env : Env)
    (i : Interaction) (w : World) :
  (forall raw, config_txt c = FileText raw ->
     strip raw <> [] -> startswith HASH (strip raw) = false ->
     load_webhook_url c = Ok (Some (strip raw)))
  /\ (forall raw, config_txt c = FileText raw ->
        strip raw = [] \/ startswith HASH (strip raw) = true ->
        load_webhook_url c = Ok (from_environ c))
  /\ (config_txt c = FileNotFound -> load_webhook_url c = Ok (from_environ c))
  /\ (forall url, load_webhook_url c = Ok (Some url) ->
        url <> [] /\ script c env i w = main env url i w)
  /\ (load_webhook_url c = Ok None ->
        script c env i w
        = (Ok tt,
           {| session_state := session_state w; db := db w;
              screen := screen w ++ [Ui.st_error MSG_NO_WEBHOOK;
                                     Ui.st_info MSG_SETUP] |})).
Proof.
  split_and!.
  - intros raw Hfile Hne Hhash. unfold load_webhook_url. rewrite Hfile.
    cbv zeta. rewrite Hhash. by destruct (strip raw).
  - intros raw Hfile Hcase. unfold load_webhook_url. rewrite Hfile.
    cbv zeta. destruct Hcase as [-> | ->]; [done|].
    by rewrite andb_false_r.
  - intros Hfile. unfold load_webhook_url. by rewrite Hfile.
  - intros url Hload.
    destruct (configure_started c url w Hload) as [Hurl Hconf].
    split; [done|]. unfold script, bind. by rewrite Hconf.
  - intros Hload. destruct w as [s d scr].
    unfold script, configure, bind, lift, draw, ret. rewrite Hload.
    cbn -[py MSG_NO_WEBHOOK MSG_SETUP]. rewrite <-app_assoc. reflexivity.
Qed.

Example load_webhook_url_samples :
  load_webhook_url
    {| config_txt := FileText (py "  https://example.com/webhook  ");
       environ := Some (py "https://other.example/hook") |}
  = Ok (Some SAMPLE_URL)
  /\ load_webhook_url
       {| config_txt := FileNotFound;
          environ := Some (py "https://other.example/hook") |}
     = Ok (Some (py "https://other.example/hook"))
  /\ load_webhook_url {| config_txt := FileNotFound; environ := Some [] |}
     = Ok None.
Proof. split; [|split]; vm_compute; reflexivity. Qed.

(** * Further properties of the script *)

(** ** What one run does to the session and to the store *)

Lemma main_chat_empty_input (env : Env) (url : pystr) (w : World)
    (f : FormInput) :
  main env url {| mode := LLM_Chat; user_input := Some []; form := f |} w
  = main env url {| mode := LLM_Chat; user_input := None; form := f |} w.
Proof. reflexivity. Qed.

(** A run of [main], in either view: the rows it leaves are the rows it
    found followed by the row the form saved, if any; the messages it
    leaves in chat mode are the ones it found followed by the ones sent;
    the commute view leaves the session alone. *)
Lemma main_effect (env : Env) (url : pystr) (i : Interaction) (w : World) :
  rows_of (db (main env url i w).2)
  = rows_of (db w) ++ saved_rows env i (rows_of (db w))
  /\ match mode i with
     | Commute_Tracker =>
       session_state (main env url i w).2 = session_state w
       /\ db (main env url i w).2
          = Some (rows_of (db w) ++ saved_rows env i (rows_of (db w)))
     | LLM_Chat =>
       db (main env url i w).2 = db w
       /\ session_id (session_state (main env url i w).2)
          = Some (default (generate_session_id env)
                    (session_id (session_state w)))
       /\ messages (session_state (main env url i w).2)
          = Some (default [] (messages (session_state w))
                  ++ sent_messages env url
                       (default (generate_session_id env)
                          (session_id (session_state w))) i)
     end.
Proof.
  destruct i as [[|] ui f]; unfold saved_rows, sent_messages;
    cbn [mode form user_input].
  - assert (forall m, m = main env url {| mode := LLM_Chat; user_input := ui;
                                          form := f |} w ->
            db m.2 = db w
            /\ session_id (session_state m.2)
               = Some (default (generate_session_id env)
                         (session_id (session_state w)))
            /\ messages (session_state m.2)
               = Some (default [] (messages (session_state w))
                       ++ match ui with
                          | Some user_text =>
                            if truthy user_text then
                              {| role := USER; content := PyStr user_text |}
                              :: match send_message_to_llm env url
                                         (default (generate_session_id env)
                                            (session_id (session_state w)))
                                         user_text with
                                 | Ok reply =>
                                   [ {| role := ASSISTANT; content := reply |} ]
                                 | Raise _ => []
                                 end
                            else []
                          | None => []
                          end)) as H.
    { intros m ->. destruct ui as [user_text|].
      - destruct (truthy user_text) eqn:Htext.
        + rewrite main_chat_submit by done. cbv zeta.
          destruct (send_message_to_llm _ _ _ _); by cbn.
        + destruct user_text; [|done].
          rewrite main_chat_empty_input, main_chat_idle. cbn.
          by rewrite app_nil_r.
      - rewrite main_chat_idle. cbn. by rewrite app_nil_r. }
    destruct (H _ eq_refl) as (Hdb & Hsid & Hmsgs).
    rewrite Hdb, app_nil_r. done.
  - destruct (render_commute_tracker_run env f
                {| session_state := session_state w; db := db w;
                   screen := screen w ++ [Ui.st_sidebar_title (py "Mode")] |})
      as [drawn Hrun].
    assert (main env url
              {| mode := Commute_Tracker; user_input := ui; form := f |} w
            = (summary_outcome (sqlite_round_avg env)
                 (if submitted f && truthy (strip (form_route_name f))
                  then rows_of (db w) ++ [new_row env f (rows_of (db w))]
                  else rows_of (db w)),
               {| session_state := session_state w;
                  db := Some (if submitted f
                                 && truthy (strip (form_route_name f))
                              then rows_of (db w)
                                   ++ [new_row env f (rows_of (db w))]
                              else rows_of (db w));
                  screen := (screen w ++ [Ui.st_sidebar_title (py "Mode")])
                            ++ drawn |})) as ->.
    { unfold main. cbn [mode form]. unfold bind at 1. cbn [draw].
      cbv zeta in Hrun. cbn [db session_state screen] in Hrun.
      exact Hrun. }
    cbn [fst snd db session_state]. unfold rows_of at 1. cbn [default].
    destruct (submitted f && truthy (strip (form_route_name f)));
      rewrite ?app_nil_r; done.
Qed.

(** A run of the whole script either stops before [main] and changes
    neither the session nor the store, or is a run of [main]. *)
Lemma script_cases (c : Config) (env : Env) (i : Interaction) (w : World) :
  (session_state (script c env i w).2 = session_state w
   /\ db (script c env i w).2 = db w)
  \/ exists url, script c env i w = main env url i w.
Proof.
  destruct (load_webhook_url c) as [[url|]|e] eqn:Hload.
  - right. exists url.
    destruct (configure_started c url w Hload) as [_ Hconf].
    unfold script, bind. by rewrite Hconf.
  - left. destruct w as [s d scr].
    unfold script, configure, bind, lift, draw, ret. rewrite Hload. by cbn.
  - left. unfold script, configure, bind, lift. rewrite Hload. by cbn.
Qed.

Lemma saved_rows_above (env : Env) (i : Interaction) (t : list CommuteLog) :
  (length (saved_rows env i t) <= 1)%nat
  /\ forall r o, r ∈ saved_rows env i t -> o ∈ t -> id o < id r.
Proof.
  unfold saved_rows. destruct (mode i); [split; [simpl; lia|]|].
  - intros r o Hr. by apply elem_of_nil in Hr.
  - destruct (submitted (form i) && truthy _); split; simpl; try lia.
    + intros r o Hr Ho. apply list_elem_of_singleton in Hr. subst r.
      simpl. by apply next_id_above.
    + intros r o Hr. by apply elem_of_nil in Hr.
Qed.

(** What any run leaves behind, whatever the configuration, the input and
    the way the run ends. *)
Lemma script_effect (c : Config) (env : Env) (i : Interaction) (w : World) :
  exists extra sent,
    rows_of (db (script c env i w).2) = rows_of (db w) ++ extra
    /\ (length extra <= 1)%nat
    /\ (forall r o, r ∈ extra -> o ∈ rows_of (db w) -> id o < id r)
    /\ (mode i = LLM_Chat -> extra = [])
    /\ (forall sid, session_id (session_state w) = Some sid ->
          session_id (session_state (script c env i w).2) = Some sid)
    /\ (forall msgs, messages (session_state w) = Some msgs ->
          messages (session_state (script c env i w).2)
          = Some (msgs ++ sent))
    /\ (length sent <= 2)%nat
    /\ (mode i = Commute_Tracker -> sent = []).
Proof.
  destruct (script_cases c env i w) as [[Hs Hd]|[url ->]].
  - exists [], []. rewrite Hs, Hd, app_nil_r. split_and!; try done.
    + simpl. lia.
    + intros r o Hr. by apply elem_of_nil in Hr.
    + intros msgs ->. by rewrite app_nil_r.
    + simpl. lia.
  - destruct (main_effect env url i w) as [Hrows Hmode].
    destruct (saved_rows_above env i (rows_of (db w))) as [Hlen Habove].
    exists (saved_rows env i (rows_of (db w))).
    destruct (mode i) eqn:Hm.
    + destruct Hmode as (_ & Hsid & Hmsgs).
      exists (sent_messages env url
                (default (generate_session_id env)
                   (session_id (session_state w))) i).
      split_and!; try done.
      * intros _. unfold saved_rows. by rewrite Hm.
      * intros sid Hw. by rewrite Hsid, Hw.
      * intros msgs Hw. rewrite Hmsgs, Hw. reflexivity.
      * unfold sent_messages. rewrite Hm.
        destruct (user_input i) as [t|]; [|simpl; lia].
        destruct (truthy t); [|simpl; lia].
        destruct (send_message_to_llm _ _ _ _); simpl; lia.
    + destruct Hmode as (Hsess & _).
      exists []. rewrite Hsess. split_and!; try done.
      * intros msgs ->. by rewrite app_nil_r.
      * simpl. lia.
Qed.

(** X1: one run of the script, whatever the configuration, the view, the
    input and the way the run ends, never changes or removes a stored row:
    the table afterwards is the table before followed by at most one row,
    whose id is larger than every id before; the chat view adds none.  So
    ids that increase in insertion order keep doing so. *)
Theorem script_store_append_only (c : Config) (env : Env) (i : Interaction)
    (w : World) :
  exists extra,
    rows_of (db (script c env i w).2) = rows_of (db w) ++ extra
    /\ (length extra <= 1)%nat
    /\ (forall r o, r ∈ extra -> o ∈ rows_of (db w) -> id o < id r)
    /\ (mode i = LLM_Chat -> extra = [])
    /\ (StronglySorted Z.lt (id <$> rows_of (db w)) ->
        StronglySorted Z.lt (id <$> rows_of (db (script c env i w).2))).
Proof.
  destruct (script_effect c env i w)
    as (extra & sent & Hrows & Hlen & Habove & Hchat & _).
  exists extra. split_and!; try done.
  intros Hsorted. rewrite Hrows, fmap_app. apply StronglySorted_app_2.
  - intros a b Ha Hb.
    apply list_elem_of_fmap in Ha as [o [-> Ho]].
    apply list_elem_of_fmap in Hb as [r [-> Hr]]. by apply Habove.
  - done.
  - destruct extra as [|r [|]]; simpl in *; try lia; repeat constructor.
Qed.

Lemma session_runs_cons (c : Config) step steps (w : World) :
  session_runs c (step :: steps) w = session_runs c steps (rerun c w step).
Proof. reflexivity. Qed.

(** X2: over any sequence of runs in one session, in any mix of the two
    views and whatever each webhook call does, the stored rows only grow
    at the end (by at most one row per run), a session id that is set is
    never replaced, and messages that are there stay where they are, with
    later ones appended after them. *)
Theorem session_runs_append_only (c : Config)
    (steps : list (Env * Interaction)) (w : World) :
  (exists more,
     rows_of (db (session_runs c steps w)) = rows_of (db w) ++ more
     /\ (length more <= length steps)%nat)
  /\ (forall sid, session_id (session_state w) = Some sid ->
        session_id (session_state (session_runs c steps w)) = Some sid)
  /\ (forall msgs, messages (session_state w) = Some msgs ->
        exists more,
          messages (session_state (session_runs c steps w))
          = Some (msgs ++ more)
          /\ (length more <= 2 * length steps)%nat).
Proof.
  revert w. induction steps as [|[env i] steps IH]; intros w.
  - change (session_runs c [] w) with w. split_and!.
    + exists []. by rewrite app_nil_r.
    + done.
    + intros msgs ->. exists []. by rewrite app_nil_r.
  - rewrite session_runs_cons.
    destruct (IH (rerun c w (env, i))) as ([more Hmore] & Hsid & Hmsgs).
    destruct (script_effect c env i
                {| session_state := session_state w; db := db w;
                   screen := [] |})
      as (extra & sent & Hrows & Hlen & _ & _ & Hsid1 & Hmsgs1 & Hsent & _).
    cbn [db session_state] in *.
    change ((script c env i
               {| session_state := session_state w; db := db w;
                  screen := [] |}).2)
      with (rerun c w (env, i)) in *.
    split_and!.
    + exists (extra ++ more). destruct Hmore as [-> Hl].
      rewrite Hrows, <-app_assoc, length_app. split; [done|simpl; lia].
    + intros sid Hw. apply Hsid, Hsid1, Hw.
    + intros msgs Hw.
      destruct (Hmsgs _ (Hmsgs1 _ Hw)) as [more' [-> Hl]].
      exists (sent ++ more'). rewrite <-app_assoc, length_app.
      split; [done|simpl; lia].
Qed.

(** ** Saving and listing *)

(** The first row of the ordered table is the one that may stand before
    all others. *)
Lemma sorted_head_first (t : list CommuteLog) (x : CommuteLog) :
  NoDup (id <$> t) -> x ∈ t -> (forall r, r ∈ t -> log_order x r) ->
  exists rest, merge_sort log_order t = x :: rest.
Proof.
  intros Hnd Hx Hfirst.
  pose proof (merge_sort_Permutation log_order t) as Hperm.
  pose proof (StronglySorted_merge_sort log_order t) as Hsorted.
  destruct (merge_sort log_order t) as [|h l].
  { rewrite <-Hperm in Hx. by apply elem_of_nil in Hx. }
  exists l. f_equal.
  assert (h ∈ t) as Hh by (rewrite <-Hperm; left).
  rewrite <-Hperm in Hx. apply elem_of_cons in Hx as [->|Hx]; [done|].
  apply StronglySorted_inv in Hsorted as [_ Hall].
  rewrite Forall_forall in Hall.
  apply (primary_key t); [done|done| |].
  - rewrite <-Hperm. by right.
  - apply log_order_same_id; [by apply Hall|by apply Hfirst].
Qed.

(** X3: saving and then listing.  When the form is saved with a route
    name, and no stored row has a later date, or the same date and a later
    time, than the form's, then the row just saved is the first one that
    [fetch_commute_logs] returns afterwards, for every limit from 1 to
    2^63 - 1, the largest that can be bound: among rows of the same date
    and time the newest id wins. *)
Theorem saved_entry_listed_first (env : Env) (f : FormInput) (w : World)
    (n : Z) :
  submitted f = true ->
  strip (form_route_name f) <> [] ->
  NoDup (id <$> rows_of (db w)) ->
  (forall r, r ∈ rows_of (db w) ->
     PyStr.compare (travel_date r) (date_isoformat (form_travel_date f)) = Lt
     \/ (travel_date r = date_isoformat (form_travel_date f)
         /\ PyStr.compare (travel_time r) (strftime_HM (form_travel_time f))
            <> Gt)) ->
  1 <= n < 2 ^ 63 ->
  exists row rest,
    db (render_commute_tracker env f w).2 = Some (rows_of (db w) ++ [row])
    /\ fetch_commute_logs (Some n) (db (render_commute_tracker env f w).2)
       = Ok (log_dict row :: rest)
    /\ Store.route_name row = strip (form_route_name f)
    /\ notes row = Some (strip (form_notes f))
    /\ travel_date row = date_isoformat (form_travel_date f)
    /\ travel_time row = strftime_HM (form_travel_time f)
    /\ duration_minutes row = form_duration_minutes f
    /\ created_at row = isoformat_seconds (now env).
Proof.
  intros Hsub Hroute Hnd Hlate Hn.
  assert (truthy (strip (form_route_name f)) = true) as Htruthy.
  { by destruct (strip (form_route_name f)). }
  destruct (render_commute_tracker_run env f w) as [drawn ->].
  rewrite Hsub, Htruthy. cbn [andb snd db].
  rewrite fetch_commute_logs_in_range by lia.
  set (t := rows_of (db w)) in *. set (row := new_row env f t).
  assert (NoDup (id <$> t ++ [row])) as Hnd'.
  { rewrite fmap_app. apply NoDup_app. split_and!; [done| |apply NoDup_singleton].
    intros k Hk Hk'. apply list_elem_of_singleton in Hk'. subst k.
    apply list_elem_of_fmap in Hk as [o [Ho Hin]].
    apply next_id_above in Hin. simpl in Ho. lia. }
  assert (forall r, r ∈ t ++ [row] -> log_order row r) as Hfirst.
  { intros r Hr. apply log_order_spec.
    pose proof (ord_antisym _ pystr_compare_is_order) as Hanti.
    pose proof (ord_eq _ pystr_compare_is_order) as Heq.
    apply elem_of_app in Hr as [Hr|Hr].
    - pose proof (next_id_above t r Hr) as Hid.
      destruct (Hlate r Hr) as [Hd|[Hd Ht]].
      + left. cbn [row new_row travel_date]. rewrite Hanti, Hd. done.
      + right. split; [by rewrite Hd|]. cbn [row new_row travel_time id].
        rewrite Hanti.
        destruct (PyStr.compare (travel_time r) (strftime_HM (form_travel_time f)))
          eqn:Et; [|by left|done].
        right. apply Heq in Et. split; [done|lia].
    - apply list_elem_of_singleton in Hr. subst r. right. split; [done|].
      right. split; [done|lia]. }
  destruct (sorted_head_first (t ++ [row]) row Hnd'
              ltac:(apply elem_of_app; right; left) Hfirst) as [rest Hsorted].
  exists row, (log_dict <$> take (Z.to_nat n - 1) rest).
  split_and!; try reflexivity.
  unfold select_commute_logs, sql_limit. rewrite Hsorted.
  destruct (Z.ltb_spec n 0); [lia|].
  destruct (Z.to_nat n) as [|k] eqn:Hk; [lia|].
  rewrite Nat.sub_succ, Nat.sub_0_r. reflexivity.
Qed.

Lemma saved_entry_listed_first_witness :
  submitted late_form = true
  /\ strip (form_route_name late_form) <> []
  /\ 1 <= 1 < 2 ^ 63
  /\ exists row rest,
       db (render_commute_tracker (stub_env internal_error) late_form
             sample_world).2
       = Some (sample_table ++ [row])
       /\ fetch_commute_logs (Some 1)
            (db (render_commute_tracker (stub_env internal_error) late_form
                   sample_world).2)
          = Ok (log_dict row :: rest)
       /\ Store.route_name row = py "RouteB"
       /\ notes row = Some (py "early")
       /\ travel_date row = py "2024-03-10"
       /\ travel_time row = py "06:45"
       /\ duration_minutes row = 25
       /\ created_at row = py "2024-03-09T07:06:10".
Proof.
  split; [reflexivity|]. split; [discriminate|]. split; [lia|].
  assert (NoDup (id <$> rows_of (db sample_world))) as Hnd.
  { apply (bool_decide_unpack _). vm_compute. exact I. }
  refine (saved_entry_listed_first (stub_env internal_error) late_form
            sample_world 1 eq_refl ltac:(discriminate) Hnd _ ltac:(lia)).
  intros r Hr. left.
  repeat (apply elem_of_cons in Hr as [->|Hr]; [reflexivity|]).
  by apply elem_of_nil in Hr.
Defined.

(** ** Statistics add up *)

Lemma column_sum_cons {A} (w : A -> Z) x l :
  column_sum w (x :: l) = w x + column_sum w l.
Proof. reflexivity. Qed.

Lemma column_sum_perm {A} (w : A -> Z) (l1 l2 : list A) :
  l1 ≡ₚ l2 -> column_sum w l1 = column_sum w l2.
Proof.
  induction 1; rewrite ?column_sum_cons; lia.
Qed.

Lemma column_sum_ones {A} (l : list A) :
  column_sum (fun _ => 1) l = Z.of_nat (length l).
Proof.
  induction l as [|x l IH]; [done|]. rewrite column_sum_cons, IH. simpl. lia.
Qed.

(** Adding one row to the table adds its weight to the group of its key
    and to no other group. *)
Lemma group_sums_cons {A} `{EqDecision K} (key : A -> K) (w : A -> Z)
    (x : A) (t : list A) (ks : list K) :
  NoDup ks ->
  column_sum (fun k => column_sum w (filter (fun r => key r = k) (x :: t))) ks
  = (if decide (key x ∈ ks) then w x else 0)
    + column_sum (fun k => column_sum w (filter (fun r => key r = k) t)) ks.
Proof.
  induction ks as [|k ks IH]; intros Hnd.
  - rewrite decide_False by apply not_elem_of_nil. done.
  - apply NoDup_cons in Hnd as [Hk Hnd]. rewrite !column_sum_cons, IH by done.
    destruct (decide (key x ∈ ks)) as [Hin|Hout];
      destruct (decide (key x ∈ k :: ks)) as [Hin'|Hout'];
      destruct (decide (key x = k)) as [Heq|Hne].
    all: first [ rewrite filter_cons_True by exact Heq
               | rewrite filter_cons_False by exact Hne ].
    all: rewrite ?column_sum_cons.
    all: try lia.
    all: exfalso;
      first [ apply Hk; by rewrite <-Heq
            | apply Hout'; by right
            | apply Hout'; rewrite Heq; left
            | apply elem_of_cons in Hin' as [?|?]; done ].
Qed.

(** The groups of a table split it: over keys that are distinct and cover
    the table, the group sums add up to the sum over the table. *)
Lemma group_sums_total {A} `{EqDecision K} (key : A -> K) (w : A -> Z)
    (t : list A) (ks : list K) :
  NoDup ks -> (forall r, r ∈ t -> key r ∈ ks) ->
  column_sum (fun k => column_sum w (filter (fun r => key r = k) t)) ks
  = column_sum w t.
Proof.
  intros Hnd. induction t as [|x t IH]; intros Hcover.
  - clear. induction ks as [|k ks IH]; [done|].
    rewrite column_sum_cons, IH. done.
  - rewrite group_sums_cons by done.
    rewrite decide_True by (apply Hcover; left).
    rewrite IH; [done|]. intros r Hr. apply Hcover. by right.
Qed.

Lemma column_sum_fmap {A B} (w : B -> Z) (g : A -> B) (l : list A) :
  column_sum w (g <$> l) = column_sum (fun x => w (g x)) l.
Proof.
  induction l as [|x l IH]; [done|].
  rewrite fmap_cons, !column_sum_cons, IH. done.
Qed.

Lemma column_sum_ext {A} (w1 w2 : A -> Z) (l : list A) :
  (forall x, w1 x = w2 x) -> column_sum w1 l = column_sum w2 l.
Proof.
  intros Hext. induction l as [|x l IH]; [done|].
  rewrite !column_sum_cons, IH, Hext. done.
Qed.

(** A column of the statistics that is the sum of a column of the rows of
    each group adds up to the sum of that column over the table. *)
Lemma summary_column (round_avg : list Z -> double)
    (col : RouteSummary -> Z) (w : CommuteLog -> Z) (t : list CommuteLog) :
  (forall name g, col (exact_record round_avg (name, g)) = column_sum w g) ->
  column_sum col
    (merge_sort summary_order (exact_record round_avg <$> group_by_route t))
  = column_sum w t.
Proof.
  intros Hcol.
  rewrite (column_sum_perm _ _ _
             (merge_sort_Permutation summary_order
                (exact_record round_avg <$> group_by_route t))).
  unfold group_by_route. rewrite !column_sum_fmap.
  rewrite (column_sum_ext _
             (fun k => column_sum w
                         (filter (fun r => Store.route_name r = k) t)))
    by (intros name; apply Hcol).
  apply group_sums_total.
  - apply NoDup_remove_dups.
  - intros r Hr. apply elem_of_remove_dups, list_elem_of_fmap. eauto.
Qed.

(** X4: the statistics account for every stored row exactly once.  When
    no route's running total leaves the signed 64-bit range, which holds
    for every table of at most 1024 rows with durations the form accepts,
    [fetch_commute_summary] returns records whose trips add up to the
    number of rows in the table and whose total_minutes add up to the sum
    of all duration_minutes, and there are no records exactly when the
    table is empty.  It returns records in that case only: otherwise the
    query raises. *)
Theorem fetch_commute_summary_adds_up (round_avg : list Z -> double)
    (t : list CommuteLog) :
  (summable t ->
   exists l,
     fetch_commute_summary round_avg (Some t) = Ok l
     /\ foldr Z.add 0 (trips <$> l) = Z.of_nat (length t)
     /\ foldr Z.add 0 (total_minutes <$> l)
        = foldr Z.add 0 (duration_minutes <$> t)
     /\ (l = [] <-> t = []))
  /\ (forall l, fetch_commute_summary round_avg (Some t) = Ok l ->
        summable t)
  /\ (~ summable t ->
      fetch_commute_summary round_avg (Some t) = Raise OperationalError)
  /\ (Forall (fun r => 1 <= duration_minutes r <= 2 ^ 53 - 1) t ->
      (length t <= 1024)%nat -> summable t).
Proof.
  split_and!.
  - intros Hsum. eexists.
    split; [by apply fetch_commute_summary_Ok|].
    assert (foldr Z.add 0
              (trips <$> merge_sort summary_order
                           (exact_record round_avg <$> group_by_route t))
            = Z.of_nat (length t)) as Htrips.
    { rewrite <-column_sum_ones.
      apply (summary_column round_avg trips (fun _ => 1) t).
      intros name g. simpl. by rewrite column_sum_ones. }
    split_and!.
    + exact Htrips.
    + apply (summary_column round_avg total_minutes duration_minutes t).
      done.
    + split.
      * intros Hnil. rewrite Hnil in Htrips. simpl in Htrips.
        destruct t; [done|simpl in Htrips; lia].
      * intros ->. reflexivity.
  - intros l Hl. unfold fetch_commute_summary in Hl.
    destruct (mapM (aggregate round_avg) (group_by_route t)) eqn:E;
      [|done].
    assert (is_Some (mapM (aggregate round_avg) (group_by_route t))) as H
      by (by rewrite E).
    apply mapM_is_Some_1 in H. eapply Forall_impl; [exact H|].
    intros g Hg. by apply (aggregate_is_Some round_avg).
  - apply fetch_commute_summary_Raise.
  - intros Hall. apply form_table_summable.
    eapply Forall_impl; [exact Hall|]. intros r Hr. simpl in Hr. lia.
Qed.

Lemma fetch_commute_summary_adds_up_witness :
  summable sample_table
  /\ exists l,
       fetch_commute_summary stub_round_avg (Some sample_table) = Ok l
       /\ foldr Z.add 0 (trips <$> l) = 3
       /\ foldr Z.add 0 (total_minutes <$> l) = 100
       /\ (l = [] <-> sample_table = []).
Proof.
  split; [exact sample_table_summable|].
  exact (proj1 (fetch_commute_summary_adds_up stub_round_avg sample_table)
           sample_table_summable).
Defined.

(** ** Exporting stored rows *)

Lemma sanitize_clean (s : pystr) : clean s -> sanitize <$> s = s.
Proof.
  intros [Hn Hc]. induction s as [|c s IH]; [done|].
  apply not_elem_of_cons in Hn as [Hn1 Hn2].
  apply not_elem_of_cons in Hc as [Hc1 Hc2].
  rewrite fmap_cons, IH by done. f_equal.
  unfold sanitize. rewrite decide_False; [done|]. intros [?|?]; congruence.
Qed.

Lemma uint_digits_clean (d : Decimal.uint) : clean (uint_digits d).
Proof.
  unfold clean.
  induction d; simpl; rewrite ?not_elem_of_cons;
    try (split; apply not_elem_of_nil); destruct IHd; by repeat split.
Qed.

Lemma str_int_clean (n : Z) : clean (str_int n).
Proof.
  unfold str_int. destruct (Z.to_int n) as [d|d].
  - apply uint_digits_clean.
  - destruct (uint_digits_clean d). unfold clean.
    rewrite !not_elem_of_cons. by repeat split.
Qed.

Lemma log_dict_lookups (r : CommuteLog) :
  log_dict r !! py "travel_date" = Some (SqlText (travel_date r))
  /\ log_dict r !! py "travel_time" = Some (SqlText (travel_time r))
  /\ log_dict r !! py "route_name" = Some (SqlText (Store.route_name r))
  /\ log_dict r !! py "duration_minutes"
     = Some (SqlInt (duration_minutes r))
  /\ log_dict r !! py "notes" = Some (sql_text_or_null (notes r))
  /\ log_dict r !! py "created_at" = Some (SqlText (created_at r)).
Proof. unfold log_dict. split_and!; by simplify_map_eq. Qed.

Lemma csv_fields_of_stored_row (r : CommuteLog) :
  csv_field (log_dict r) <$> CSV_HEADER
  = [sanitize <$> travel_date r; sanitize <$> travel_time r;
     sanitize <$> Store.route_name r; str_int (duration_minutes r);
     sanitize <$> default (py "None") (notes r);
     sanitize <$> created_at r].
Proof.
  destruct (log_dict_lookups r) as (H1 & H2 & H3 & H4 & H5 & H6).
  unfold CSV_HEADER. cbn [fmap list_fmap].
  rewrite !csv_field_sanitize, H1, H2, H3, H4, H5, H6.
  unfold default. cbn [from_option Datatypes.id py_str].
  rewrite (sanitize_clean _ (str_int_clean _)).
  by destruct (notes r).
Qed.

(** X5: the CSV line of a row that [fetch_commute_logs] returned takes all
    six columns from the row, so the empty-string default of a missing
    column is never used: cut at the commas, the line is the date, the
    time, the route name, the duration in decimal digits, the notes and
    the creation time, each text with its newlines and commas turned into
    spaces.  A row whose notes are NULL is exported with the text
    [None]. *)
Theorem csv_line_of_stored_row (r : CommuteLog) :
  split_on COMMA (csv_line (log_dict r))
  = [sanitize <$> travel_date r; sanitize <$> travel_time r;
     sanitize <$> Store.route_name r; str_int (duration_minutes r);
     sanitize <$> default (py "None") (notes r);
     sanitize <$> created_at r]
  /\ (notes r = None ->
      split_on COMMA (csv_line (log_dict r)) !! 4%nat = Some (py "None")).
Proof.
  rewrite csv_line_fields, csv_fields_of_stored_row. split; [done|].
  intros ->. reflexivity.
Qed.

(** X6: the export can be read back when the texts are clean.  For stored
    rows whose date, time, route name, notes and creation time hold no
    comma and no newline, cutting the text of [build_csv] at the newlines,
    dropping the header, and cutting each line at the commas gives back
    exactly the six texts of each row, row by row in the order given. *)
Theorem build_csv_round_trip (t : list CommuteLog) :
  Forall (fun r => Forall clean (row_texts r)) t ->
  parse_csv (build_csv (log_dict <$> t)) = row_texts <$> t.
Proof.
  intros Hclean. unfold parse_csv. rewrite build_csv_lines. cbn [drop].
  rewrite drop_0. induction Hclean as [|r t Hr _ IH]; [done|].
  rewrite !fmap_cons, IH. f_equal.
  rewrite csv_line_fields, csv_fields_of_stored_row.
  unfold row_texts in *.
  repeat (apply Forall_cons in Hr as [? Hr]).
  by rewrite !sanitize_clean.
Qed.

Lemma build_csv_round_trip_witness :
  Forall (fun r => Forall clean (row_texts r)) sample_table
  /\ parse_csv (build_csv (log_dict <$> sample_table))
     = [ [py "2024-03-08"; py "08:10"; py "RouteA"; py "30"; [];
          py "2024-03-08T08:10:00"];
         [py "2024-03-09"; py "08:05"; py "RouteA"; py "50"; [];
          py "2024-03-09T08:05:00"];
         [py "2024-03-09"; py "18:30"; py "RouteB"; py "20"; [];
          py "2024-03-09T18:30:00"] ].
Proof.
  assert (Forall (fun r => Forall clean (row_texts r)) sample_table) as H.
  { repeat constructor; apply (bool_decide_unpack _); vm_compute; exact I. }
  split; [exact H|].
  exact (build_csv_round_trip sample_table H).
Defined.

(** ** The text order of dates and times *)

Lemma compare_app (a b s t : pystr) :
  length a = length b ->
  PyStr.compare (a ++ s) (b ++ t)
  = match PyStr.compare a b with
    | Eq => PyStr.compare s t
    | c => c
    end.
Proof.
  revert b. induction a as [|x a IH]; intros [|y b] Hlen; try done.
  simpl. destruct (x ?= y)%N; try done. apply IH. by injection Hlen.
Qed.

Lemma split_tens (b a : N) :
  (b <> 0 -> a = b * (a / b) + a mod b /\ a mod b < b)%N.
Proof.
  intros Hb. split; [by apply N.div_mod|by apply N.mod_lt].
Qed.

(** Comparing a two-part number part by part. *)
Lemma compare_parts (base x y x' y' a b : N) :
  (a = base * x + y -> b = base * x' + y' -> y < base -> y' < base ->
   match x ?= x' with Eq => y ?= y' | c => c end = (a ?= b))%N.
Proof.
  intros -> -> Hy Hy'. destruct (N.compare_spec x x'); [subst|..].
  - destruct (N.compare_spec y y'); symmetry;
      [apply N.compare_eq_iff|apply N.compare_lt_iff|apply N.compare_gt_iff];
      nia.
  - symmetry. apply N.compare_lt_iff. nia.
  - symmetry. apply N.compare_gt_iff. nia.
Qed.

Lemma digit_compare (u v : N) : (digit u ?= digit v)%N = (u ?= v)%N.
Proof.
  unfold digit. destruct (N.compare_spec u v); [subst|..].
  - apply N.compare_refl.
  - apply N.compare_lt_iff. lia.
  - apply N.compare_gt_iff. lia.
Qed.

Lemma compare_pad2 (a b : N) :
  (a < 100)%N -> (b < 100)%N -> PyStr.compare (pad2 a) (pad2 b) = (a ?= b)%N.
Proof.
  intros Ha Hb. unfold pad2. cbn [PyStr.compare]. rewrite !digit_compare.
  destruct (split_tens 10 a ltac:(done)) as [Ea Hra].
  destruct (split_tens 10 b ltac:(done)) as [Eb Hrb].
  assert (a / 10 < 10)%N by (apply N.Div0.div_lt_upper_bound; lia).
  assert (b / 10 < 10)%N by (apply N.Div0.div_lt_upper_bound; lia).
  rewrite !(N.mod_small (_ / 10) 10) by done.
  rewrite <-(compare_parts 10 (a / 10) (a mod 10) (b / 10) (b mod 10) a b)
    by done.
  destruct (a / 10 ?= b / 10)%N; try done.
  by destruct (a mod 10 ?= b mod 10)%N.
Qed.

Lemma pad4_pad2 (a : N) : pad4 a = pad2 (a / 100) ++ pad2 (a mod 100).
Proof.
  destruct (split_tens 100 a ltac:(done)) as [E _].
  assert (a = a mod 100 + (10 * (a / 100)) * 10)%N as E' by lia.
  assert (a / 1000 = a / 100 / 10)%N as H3 by by rewrite N.Div0.div_div.
  assert (a / 10 mod 10 = a mod 100 / 10 mod 10)%N as H1.
  { rewrite E' at 1. rewrite N.div_add by lia.
    replace (a mod 100 / 10 + 10 * (a / 100))%N
      with (a mod 100 / 10 + (a / 100) * 10)%N by lia.
    apply N.Div0.mod_add. }
  assert (a mod 10 = a mod 100 mod 10)%N as H0.
  { rewrite E' at 1. apply N.Div0.mod_add. }
  unfold pad4, pad2. cbn [app]. by rewrite H3, H1, H0.
Qed.

Lemma compare_pad4 (a b : N) :
  (a < 10000)%N -> (b < 10000)%N ->
  PyStr.compare (pad4 a) (pad4 b) = (a ?= b)%N.
Proof.
  intros Ha Hb. rewrite !pad4_pad2, compare_app by done.
  destruct (split_tens 100 a ltac:(done)) as [Ea Hra].
  destruct (split_tens 100 b ltac:(done)) as [Eb Hrb].
  rewrite !compare_pad2
    by (done || (apply N.Div0.div_lt_upper_bound; lia)).
  by apply (compare_parts 100).
Qed.

(** X7: the texts that the form stores order the way the calendar and the
    clock do.  For dates and times within the ranges of Python's [date]
    and [time], comparing two [isoformat()] dates character by character,
    as SQLite's ORDER BY does on the TEXT columns, gives the order of the
    dates (year, then month, then day), and comparing two ["%H:%M"] times
    gives the order of hour and minute. *)
Theorem iso_text_order_is_chronological (d1 d2 : date) (t1 t2 : time) :
  valid_date d1 -> valid_date d2 -> valid_time t1 -> valid_time t2 ->
  PyStr.compare (date_isoformat d1) (date_isoformat d2) = date_compare d1 d2
  /\ PyStr.compare (strftime_HM t1) (strftime_HM t2) = minute_compare t1 t2.
Proof.
  intros (Hy1 & Hm1 & Hd1) (Hy2 & Hm2 & Hd2) [Hh1 Hn1] [Hh2 Hn2].
  unfold date_isoformat, strftime_HM, date_compare, minute_compare, lex.
  change (py "-") with [45%N]. change (py ":") with [58%N]. cbn [fst snd].
  split.
  - rewrite compare_app, compare_pad4 by (done || lia).
    destruct (year d1 ?= year d2)%N; try done.
    cbn [app PyStr.compare]. rewrite N.compare_refl.
    rewrite compare_app, compare_pad2 by (done || lia).
    destruct (month d1 ?= month d2)%N; try done.
    cbn [app PyStr.compare]. rewrite N.compare_refl.
    apply compare_pad2; lia.
  - rewrite compare_app, compare_pad2 by (done || lia).
    destruct (hour t1 ?= hour t2)%N; try done.
    cbn [app PyStr.compare]. rewrite N.compare_refl.
    apply compare_pad2; lia.
Qed.

Lemma iso_text_order_is_chronological_witness :
  valid_date {| year := 2024; month := 3; day := 9 |}
  /\ valid_date {| year := 2024; month := 11; day := 2 |}
  /\ valid_time {| hour := 9; minute := 30; second := 0; microsecond := 0 |}
  /\ valid_time {| hour := 18; minute := 5; second := 0; microsecond := 0 |}
  /\ PyStr.compare (py "2024-03-09") (py "2024-11-02") = Lt
  /\ PyStr.compare (py "09:30") (py "18:05") = Lt.
Proof.
  assert (valid_date {| year := 2024; month := 3; day := 9 |}) as H1
    by (unfold valid_date; simpl; lia).
  assert (valid_date {| year := 2024; month := 11; day := 2 |}) as H2
    by (unfold valid_date; simpl; lia).
  assert (valid_time {| hour := 9; minute := 30; second := 0;
                        microsecond := 0 |}) as H3
    by (unfold valid_time; simpl; lia).
  assert (valid_time {| hour := 18; minute := 5; second := 0;
                        microsecond := 0 |}) as H4
    by (unfold valid_time; simpl; lia).
  split; [exact H1|]. split; [exact H2|]. split; [exact H3|].
  split; [exact H4|].
  exact (iso_text_order_is_chronological _ _ _ _ H1 H2 H3 H4).
Defined.

(** ** What the form lets into the table *)

Lemma lstrip_head (s : pystr) c :
  head (lstrip s) = Some c -> is_space c = false.
Proof.
  induction s as [|x s IH]; simpl; [done|].
  destruct (is_space x) eqn:Hx; [done|]. simpl. by intros [= <-].
Qed.

Lemma rstrip_prefix (s : pystr) : exists q, s = rstrip s ++ q.
Proof.
  unfold rstrip. destruct (lstrip_suffix (rev s)) as [p [Hp _]].
  exists (rev p). rewrite <-rev_app_distr, <-Hp. by rewrite rev_involutive.
Qed.

Lemma last_rev {A} (l : list A) : last (rev l) = head l.
Proof. destruct l as [|x l]; [done|]. simpl. apply last_snoc. Qed.

Lemma strip_no_outer_space (s : pystr) : no_outer_space (strip s).
Proof.
  intros c [Hhead|Hlast].
  - unfold strip in Hhead.
    destruct (rstrip_prefix (lstrip s)) as [q Hq].
    apply (lstrip_head s). rewrite Hq.
    destruct (rstrip (lstrip s)); [done|]. exact Hhead.
  - unfold strip, rstrip in Hlast. rewrite last_rev in Hlast.
    by apply (lstrip_head (rev (lstrip s))).
Qed.

(** The rows a run leaves: the rows it found, and behind them at most the
    row built from the form. *)
Lemma script_rows (c : Config) (env : Env) (i : Interaction) (w : World) :
  rows_of (db (script c env i w).2) = rows_of (db w)
  \/ (rows_of (db (script c env i w).2)
      = rows_of (db w) ++ [new_row env (form i) (rows_of (db w))]
      /\ strip (form_route_name (form i)) <> []).
Proof.
  destruct (script_cases c env i w) as [[_ Hd]|[url ->]].
  - left. by rewrite Hd.
  - destruct (main_effect env url i w) as [-> _]. unfold saved_rows.
    destruct (mode i); [left; by rewrite app_nil_r|].
    destruct (submitted (form i)); cbn [andb]; [|left; by rewrite app_nil_r].
    destruct (strip (form_route_name (form i))) eqn:Hs; cbn [truthy].
    + left. by rewrite app_nil_r.
    + right. by split.
Qed.

Lemma new_row_form_made (env : Env) (f : FormInput) (t : list CommuteLog) :
  strip (form_route_name f) <> [] -> form_made (new_row env f t).
Proof.
  intros Hne. unfold form_made, new_row. cbn. split_and!; try done.
  - apply strip_no_outer_space.
  - eexists. split; [done|]. apply strip_no_outer_space.
Qed.

(** X8: the checks of the form hold for the whole table.  If every stored
    row has a route name that is not empty, route name and notes without
    white space at either end, and date, time and creation time of the
    widths of [YYYY-MM-DD], [HH:MM] and [YYYY-MM-DDTHH:MM:SS], then so has
    every row after any sequence of runs of the script; in particular
    every row of a table that started empty. *)
Theorem session_runs_keep_form_made (c : Config)
    (steps : list (Env * Interaction)) (w : World) :
  Forall form_made (rows_of (db w)) ->
  Forall form_made (rows_of (db (session_runs c steps w))).
Proof.
  revert w. induction steps as [|[env i] steps IH]; intros w Hw; [done|].
  rewrite session_runs_cons. apply IH. unfold rerun. cbn [fst snd].
  destruct (script_rows c env i
              {| session_state := session_state w; db := db w;
                 screen := [] |}) as [->|[-> Hne]]; cbn [db]; [done|].
  apply Forall_app. split; [done|].
  apply Forall_singleton. by apply new_row_form_made.
Qed.

Lemma session_runs_keep_form_made_witness :
  Forall form_made (rows_of (db fresh_world))
  /\ Forall form_made
       (rows_of
          (db (session_runs two_line_config
                 [(stub_env internal_error,
                   commute (filled_form (py " Home to work ") (py " rain ")));
                  (stub_env internal_error, chat (py "hi"));
                  (stub_env internal_error,
                   commute (filled_form (py "   ") (py "late")))]
                 fresh_world))).
Proof.
  assert (Forall form_made (rows_of (db fresh_world))) as H by constructor.
  split; [exact H|].
  exact (session_runs_keep_form_made _ _ _ H).
Defined.

Example session_runs_sample :
  Store.route_name
  <$> rows_of
        (db (session_runs two_line_config
               [(stub_env internal_error,
                 commute (filled_form (py " Home to work ") (py " rain ")));
                (stub_env internal_error, chat (py "hi"));
                (stub_env internal_error,
                 commute (filled_form (py "   ") (py "late")))]
               fresh_world))
  = [py "Home to work"].
Proof. vm_compute. reflexivity. Qed.

(** ** When two session identifiers coincide *)

Lemma testbit_shiftl_ones (k s n : N) :
  N.testbit (N.shiftl (N.ones k) s) n = ((s <=? n) && (n <? s + k))%N.
Proof.
  destruct (N.leb_spec s n) as [Hle|Hlt]; cbn [andb].
  - rewrite N.shiftl_spec_high' by done.
    destruct (N.ltb_spec n (s + k)).
    + apply N.ones_spec_low. lia.
    + apply N.ones_spec_high. lia.
  - by apply N.shiftl_spec_low.
Qed.

(** Bit by bit, [uuid4] keeps the free bits of its input and fixes the
    others: bits 63 and 78 are set, the rest is clear. *)
Lemma uuid4_bit (r n : N) :
  N.testbit (uuid4 r) n
  = if free_bit n then N.testbit r n else ((n =? 63) || (n =? 78))%N.
Proof.
  unfold uuid4. cbv zeta.
  change (N.shiftl 49152 48) with (N.shiftl (N.ones 2) 62).
  change (N.shiftl 32768 48) with (N.shiftl (N.ones 1) 63).
  change (N.shiftl 61440 64) with (N.shiftl (N.ones 4) 76).
  change (N.shiftl 4 76) with (N.shiftl (N.ones 1) 78).
  rewrite N.lor_spec, N.ldiff_spec, N.lor_spec, N.ldiff_spec, N.land_spec.
  rewrite !testbit_shiftl_ones.
  assert (N.testbit (N.ones 128) n = (n <? 128)%N) as ->.
  { destruct (N.ltb_spec n 128).
    - by apply N.ones_spec_low.
    - by apply N.ones_spec_high. }
  unfold free_bit.
  assert (n < 62 \/ 62 <= n < 63 \/ 63 <= n < 64 \/ 64 <= n < 76
          \/ 76 <= n < 78 \/ 78 <= n < 79 \/ 79 <= n < 80
          \/ 80 <= n < 128 \/ 128 <= n)%N as Hcase by lia.
  decompose [or] Hcase; clear Hcase;
    repeat match goal with
           | |- context [(?a <=? ?b)%N] =>
             first [ rewrite (proj2 (N.leb_le a b)) by lia
                   | rewrite (proj2 (N.leb_gt a b)) by lia ]
           | |- context [(?a <? ?b)%N] =>
             first [ rewrite (proj2 (N.ltb_lt a b)) by lia
                   | rewrite (proj2 (N.ltb_ge a b)) by lia ]
           | |- context [(?a =? ?b)%N] =>
             first [ rewrite (proj2 (N.eqb_eq a b)) by lia
                   | rewrite (proj2 (N.eqb_neq a b)) by lia ]
           end;
    cbn [andb orb negb]; rewrite ?andb_true_r, ?andb_false_r, ?orb_false_r,
      ?orb_true_r; reflexivity.
Qed.

Lemma hex_digit_inj (d d' : N) :
  (d < 16)%N -> (d' < 16)%N -> hex_digit d = hex_digit d' -> d = d'.
Proof.
  unfold hex_digit. intros Hd Hd'.
  destruct (N.ltb_spec d 10), (N.ltb_spec d' 10); lia.
Qed.

(** The 32 hexadecimal digits determine the low 128 bits. *)
Lemma hex32_bits (a b : N) :
  hex32 a = hex32 b ->
  forall n, (n < 128)%N -> N.testbit a n = N.testbit b n.
Proof.
  intros Hhex n Hn.
  assert (n = n mod 4 + 4 * (n / 4) /\ n mod 4 < 4 /\ n / 4 < 32)%N
    as (En & Hm & Hq).
  { pose proof (N.div_mod n 4 ltac:(done)).
    pose proof (N.mod_lt n 4 ltac:(done)).
    split_and!; [lia|done|]. apply N.Div0.div_lt_upper_bound. lia. }
  set (k := (31 - N.to_nat (n / 4))%nat).
  assert (k < 32)%nat as Hk by (unfold k; lia).
  pose proof (f_equal (fun l => l !! k) Hhex) as Hk'. cbv beta in Hk'.
  unfold hex32 in Hk'.
  rewrite !list_lookup_fmap, !lookup_seq_lt in Hk' by done.
  cbn [fmap option_fmap option_map] in Hk'.
  replace (4 * N.of_nat (31 - (0 + k)))%N with (4 * (n / 4))%N in Hk'
    by (unfold k; lia).
  injection Hk' as Hk'. apply hex_digit_inj in Hk'; try apply nibble_lt.
  pose proof (f_equal (fun x => N.testbit x (n mod 4)) Hk') as Hbit.
  cbv beta in Hbit. rewrite !N.land_spec, !N.shiftr_spec' in Hbit.
  rewrite <-En in Hbit.
  change 15%N with (N.ones 4) in Hbit.
  rewrite N.ones_spec_low, !andb_true_r in Hbit by done. exact Hbit.
Qed.

(** The hyphens carry nothing: the identifier gives its digits back. *)
Lemma uuid_str_digits (a b : N) : uuid_str a = uuid_str b -> hex32 a = hex32 b.
Proof.
  intros H.
  pose proof (f_equal (fun s => take 8 s ++ take 4 (drop 9 s)
                                ++ take 4 (drop 14 s) ++ take 4 (drop 19 s)
                                ++ drop 24 s) H) as H'.
  exact H'.
Qed.

(** X9: two sessions get the same identifier exactly when their sixteen
    random bytes agree in every bit that [uuid4] does not overwrite, that
    is, in all of the 128 bits but the two variant bits and the four
    version bits.  Random bytes that differ in one of these 122 bits give
    different session ids. *)
Theorem generate_session_id_same (e1 e2 : Env) :
  generate_session_id e1 = generate_session_id e2
  <-> forall n, free_bit n = true ->
        N.testbit (urandom e1) n = N.testbit (urandom e2) n.
Proof.
  unfold generate_session_id. split.
  - intros H n Hfree. apply uuid_str_digits in H.
    assert (n < 128)%N as Hn.
    { unfold free_bit in Hfree. apply andb_true_iff in Hfree as [Hfree _].
      by apply N.ltb_lt. }
    pose proof (hex32_bits _ _ H n Hn) as Hbit.
    by rewrite !uuid4_bit, Hfree in Hbit.
  - intros H. f_equal. apply N.bits_inj. intros n. rewrite !uuid4_bit.
    destruct (free_bit n) eqn:Hfree; [by apply H|done].
Qed.

Example generate_session_id_differ :
  generate_session_id (stub_env internal_error)
  = py "00000000-0000-4000-8000-000000000000"
  /\ generate_session_id
       {| now := sample_now; sqlite_round_avg := stub_round_avg; urandom := 1; post := fun _ _ => Ok internal_error |}
     = py "00000000-0000-4000-8000-000000000001"
  /\ generate_session_id
       {| now := sample_now; sqlite_round_avg := stub_round_avg; urandom := N.shiftl 1 62;
          post := fun _ _ => Ok internal_error |}
     = py "00000000-0000-4000-8000-000000000000".
Proof. split; [|split]; vm_compute; reflexivity. Qed.

(** ** How many rows are listed and exported *)

Lemma select_commute_logs_length (n : Z) (t : list CommuteLog) :
  length (select_commute_logs n t)
  = if n <? 0 then length t else Nat.min (Z.to_nat n) (length t).
Proof.
  unfold select_commute_logs, sql_limit.
  pose proof (Permutation_length (merge_sort_Permutation log_order t)) as Hl.
  destruct (n <? 0); [done|]. by rewrite length_take, Hl.
Qed.

(** X10: for a limit [N] that fits in 64 signed bits,
    [fetch_commute_logs] returns exactly [min(N, stored)] rows when
    [N >= 0] and every stored row when [N] is negative; when the limit is
    negative or at least the number of stored rows, the result is a
    rearrangement of the whole table.  A limit outside that range cannot
    be bound and the call raises [OverflowError]; on a database whose
    table has not been created it raises [OperationalError], whatever the
    limit. *)
Theorem fetch_commute_logs_count (t : list CommuteLog) (n : Z) :
  (- 2 ^ 63 <= n < 2 ^ 63 ->
   exists rows,
     fetch_commute_logs (Some n) (Some t) = Ok (log_dict <$> rows)
     /\ length (log_dict <$> rows)
        = (if n <? 0 then length t else Nat.min (Z.to_nat n) (length t))
     /\ (n < 0 \/ Z.of_nat (length t) <= n -> rows ≡ₚ t))
  /\ (n < - 2 ^ 63 \/ 2 ^ 63 <= n ->
      fetch_commute_logs (Some n) (Some t) = Raise OverflowError)
  /\ fetch_commute_logs (Some n) None = Raise OperationalError.
Proof.
  split_and!; [| |done].
  - intros Hn. exists (select_commute_logs n t). split_and!.
    + by apply fetch_commute_logs_in_range.
    + by rewrite length_fmap, select_commute_logs_length.
    + intros Hall. unfold select_commute_logs, sql_limit.
      pose proof (Permutation_length (merge_sort_Permutation log_order t))
        as Hl.
      destruct (Z.ltb_spec n 0); [apply merge_sort_Permutation|].
      rewrite take_ge by lia. apply merge_sort_Permutation.
  - intros Hn. unfold fetch_commute_logs.
    change (default DEFAULT_LIMIT (Some n)) with n.
    by rewrite (proj2 (int64_false n) Hn).
Qed.

Lemma fetch_commute_logs_count_witness :
  - 2 ^ 63 <= 2 < 2 ^ 63
  /\ exists rows,
       fetch_commute_logs (Some 2) (Some sample_table)
       = Ok (log_dict <$> rows)
       /\ length (log_dict <$> rows) = 2%nat
       /\ (2 < 0 \/ Z.of_nat (length sample_table) <= 2 ->
           rows ≡ₚ sample_table).
Proof.
  assert (- 2 ^ 63 <= 2 < 2 ^ 63) as Hn by lia.
  split; [exact Hn|].
  exact (proj1 (fetch_commute_logs_count sample_table 2) Hn).
Defined.

(** X11: the download under the list of recent entries.  The list part of
    the commute view ends normally and changes neither session nor store.
    When the table is empty it draws a notice and offers no download;
    otherwise it draws the table of the 50 most recent rows and a download
    button whose data is the CSV of those same rows: never more than 50
    rows, [min(50, stored) + 1] lines, however many rows are stored. *)
Theorem render_recent_logs_download (w : World) (t : list CommuteLog) :
  db w = Some t ->
  render_recent_logs w
  = (Ok tt,
     {| session_state := session_state w; db := db w;
        screen :=
          screen w
          ++ [Ui.st_divider; Ui.st_subheader (py "최근 기록")]
          ++ match t with
             | [] => [Ui.st_info (py "아직 저장된 기록이 없습니다.")]
             | _ :: _ =>
               [Ui.st_dataframe_logs (log_dict <$> select_commute_logs 50 t);
                Ui.st_download_button (py "CSV 다운로드")
                  (build_csv (log_dict <$> select_commute_logs 50 t))
                  (py "commute_logs.csv") (py "text/csv")]
             end |})
  /\ (length (select_commute_logs 50 t) <= 50)%nat
  /\ length (split_on NEWLINE
               (build_csv (log_dict <$> select_commute_logs 50 t)))
     = S (Nat.min 50 (length t)).
Proof.
  intros Hdb. split_and!.
  - destruct w as [s d scr]. simpl in Hdb. subst d.
    unfold render_recent_logs.
    do 3 (unfold bind at 1; cbn [draw with_db db session_state screen]).
    rewrite fetch_commute_logs_in_range by lia.
    pose proof (select_commute_logs_length 50 t) as Hlen.
    destruct (select_commute_logs 50 t) as [|r rows] eqn:Hsel;
      destruct t as [|x t]; try (simpl in Hlen; discriminate Hlen).
    + unfold draw. cbn [fmap list_fmap db session_state screen].
      rewrite <-?app_assoc. reflexivity.
    + unfold bind, draw. cbn [fmap list_fmap db session_state screen].
      rewrite <-?app_assoc. reflexivity.
  - rewrite select_commute_logs_length.
    change (50 <? 0) with false. cbv iota. lia.
  - rewrite build_csv_lines. cbn [length]. rewrite !length_fmap.
    rewrite select_commute_logs_length.
    change (50 <? 0) with false. cbv iota. f_equal; lia.
Qed.

Lemma render_recent_logs_download_witness :
  db sample_world = Some sample_table
  /\ (render_recent_logs sample_world).1 = Ok tt
  /\ length (split_on NEWLINE
               (build_csv (log_dict <$> select_commute_logs 50 sample_table)))
     = 4%nat.
Proof.
  split; [reflexivity|].
  destruct (render_recent_logs_download sample_world sample_table eq_refl)
    as (Hrun & _ & Hlines).
  split; [by rewrite Hrun|exact Hlines].
Defined.

(** ** Where the webhook URL comes from *)

(** X12: reading [load_webhook_url] backwards.  A URL it returns is never
    empty.  It is either the trimmed content of a config file that is
    there, and then it has no white space at either end and does not begin
    with [#]; or it is the value of WEBHOOK_URL exactly as the environment
    holds it, untrimmed and whatever its first character, and then the
    file is absent or its trimmed content is empty or begins with [#].
    The function raises exactly when reading the file fails in another
    way than by the file being absent. *)
Theorem load_webhook_url_sources (c : Config) :
  (forall url, load_webhook_url c = Ok (Some url) ->
     url <> []
     /\ ((exists raw, config_txt c = FileText raw /\ url = strip raw
                      /\ startswith HASH url = false
                      /\ no_outer_space url)
         \/ (environ c = Some url
             /\ (config_txt c = FileNotFound
                 \/ exists raw, config_txt c = FileText raw
                      /\ (strip raw = []
                          \/ startswith HASH (strip raw) = true)))))
  /\ (forall e, load_webhook_url c = Raise e <-> config_txt c = FileFault e).
Proof.
  assert (forall url, from_environ c = Some url ->
            url <> [] /\ environ c = Some url) as Henv.
  { unfold from_environ. intros url H. destruct (environ c) as [u|]; [|done].
    destruct u; cbn [truthy] in H; [done|]. by simplify_eq. }
  split.
  - intros url Hload. unfold load_webhook_url in Hload.
    fold (from_environ c) in Hload.
    destruct (config_txt c) as [|raw|e] eqn:Hfile; [| |done].
    + injection Hload as Hload. destruct (Henv _ Hload) as [Hne He].
      split; [done|]. right. split; [done|]. by left.
    + cbv zeta in Hload.
      destruct (strip raw) as [|x s] eqn:Hs; cbn [truthy andb] in Hload.
      * injection Hload as Hload. destruct (Henv _ Hload) as [Hne He].
        split; [done|]. right. split; [done|]. right. exists raw.
        split; [done|]. by left.
      * destruct (startswith HASH (x :: s)) eqn:Hhash; cbn [negb] in Hload.
        -- injection Hload as Hload. destruct (Henv _ Hload) as [Hne He].
           split; [done|]. right. split; [done|]. right. exists raw.
           split; [done|]. right. by rewrite Hs.
        -- injection Hload as <-. split; [done|]. left. exists raw.
           split_and!; [done|done|done|].
           rewrite <-Hs. apply strip_no_outer_space.
  - intros e. unfold load_webhook_url.
    destruct (config_txt c) as [|raw|e']; cbv zeta.
    + split; intros H; discriminate H.
    + destruct (truthy (strip raw) && negb (startswith HASH (strip raw)));
        split; intros H; discriminate H.
    + split; intros H; by simplify_eq.
Qed.

Example load_webhook_url_environ_verbatim :
  load_webhook_url
    {| config_txt := FileText (py "# put the URL below");
       environ := Some (py " #not trimmed ") |}
  = Ok (Some (py " #not trimmed ")).
Proof. vm_compute. reflexivity. Qed.

(** ** What the next run shows *)

(** X13: a message that was sent is on the page in every later run.  After
    a chat run with a message typed in, the next run of the chat view
    without input ends normally, leaves the session as it is, and draws
    the two titles, then the earlier messages in order, then the user's
    message, then the assistant's message if the webhook call had yielded
    a reply; when the call had raised, the user's message is there
    without an answer. *)
Theorem chat_rerun_shows_transcript (env env' : Env) (url : pystr)
    (w : World) (user_text : pystr) (f f' : FormInput) :
  truthy user_text = true ->
  let w1 :=
    (main env url
       {| mode := LLM_Chat; user_input := Some user_text; form := f |} w).2 in
  let next :=
    main env' url {| mode := LLM_Chat; user_input := None; form := f' |}
      {| session_state := session_state w1; db := db w1; screen := [] |} in
  next.1 = Ok tt
  /\ session_state next.2 = session_state w1
  /\ screen next.2
     = [Ui.st_sidebar_title (py "Mode"); Ui.st_title (py "Chat with LLM")]
       ++ history_events (default [] (messages (session_state w)))
       ++ [Ui.st_chat_message (py "user") (PyStr user_text)]
       ++ match send_message_to_llm env url
                  (default (generate_session_id env)
                     (session_id (session_state w))) user_text with
          | Ok reply => [Ui.st_chat_message (py "assistant") reply]
          | Raise _ => []
          end.
Proof.
  intros Htext. cbv zeta. rewrite main_chat_submit by done. cbv zeta.
  rewrite main_chat_idle.
  destruct (send_message_to_llm _ _ _ _) as [reply|e];
    cbn [fst snd session_state messages session_id db screen default
         from_option Datatypes.id];
    unfold default; cbn [from_option Datatypes.id];
    (split_and!; [done|done|]);
    unfold history_events; rewrite !fmap_app; cbn [app fmap list_fmap];
    rewrite <-?app_assoc; reflexivity.
Qed.

Lemma chat_rerun_shows_transcript_witness :
  truthy (py "hi") = true
  /\ screen
       (main (stub_env internal_error) SAMPLE_URL
          {| mode := LLM_Chat; user_input := None; form := idle_form |}
          {| session_state :=
               session_state
                 (main (stub_env empty_object) SAMPLE_URL (chat (py "hi"))
                    fresh_world).2;
             db := None; screen := [] |}).2
     = [Ui.st_sidebar_title (py "Mode"); Ui.st_title (py "Chat with LLM");
        Ui.st_chat_message (py "user") (PyStr (py "hi"))].
Proof.
  split; [reflexivity|].
  pose proof (chat_rerun_shows_transcript (stub_env empty_object)
                (stub_env internal_error) SAMPLE_URL fresh_world (py "hi")
                idle_form idle_form eq_refl) as H.
  cbv zeta in H. destruct H as (_ & _ & H). exact H.
Defined.

(** ** When the webhook call raises *)

(** X14: [send_message_to_llm] raises in exactly four situations: the
    request itself raised (the same exception comes out); or the status is
    200 and the body is not JSON ([JSONDecodeError]), or is JSON but not
    an object ([TypeError]), or is an object without an ["output"] key
    ([KeyError]).  In particular it never raises once a response with
    another status than 200 has arrived, and with status 200 and an
    ["output"] key it returns the value under that key, whatever its JSON
    type. *)
Theorem send_message_to_llm_raises (env : Env) (url sid msg : pystr)
    (e : exn) :
  send_message_to_llm env url sid msg = Raise e
  <-> post env url {| sessionId := sid; chatInput := msg |} = Raise e
      \/ exists r,
           post env url {| sessionId := sid; chatInput := msg |} = Ok r
           /\ status_code r = 200
           /\ ((json r = None /\ e = JSONDecodeError)
               \/ (exists v, json r = Some v
                             /\ (forall items, v <> PyDict items)
                             /\ e = TypeError)
               \/ (exists items, json r = Some (PyDict items)
                                 /\ dict_lookup (py "output") items = None
                                 /\ e = KeyError)).
Proof.
  unfold send_message_to_llm.
  destruct (post env url _) as [r|e'] eqn:Hpost.
  - destruct (Z.eqb_spec (status_code r) 200) as [H200|Hnot].
    + split.
      * intros H. right. exists r. split_and!; [done|done|].
        destruct (json r) as [v|]; [|injection H as <-; by left].
        right. destruct v as [| | | | |items]; cbn [getitem] in H.
        6: { destruct (dict_lookup (py "output") items) eqn:Hout; [done|].
             injection H as <-. right. by exists items. }
        all: injection H as <-; left; eexists; split_and!; done.
      * intros [H|(r' & Hr' & _ & Hcases)]; [done|].
        injection Hr' as <-.
        destruct Hcases as [[Hn ->]|[(v & Hv & Hnd & ->)
                                    |(items & Hit & Hout & ->)]].
        -- by rewrite Hn.
        -- rewrite Hv. destruct v; cbn [getitem]; try done.
           by destruct (Hnd items).
        -- rewrite Hit. cbn [getitem]. by rewrite Hout.
    + split; [done|].
      intros [H|(r' & Hr' & H200 & _)]; [done|].
      injection Hr' as <-. done.
  - split.
    + intros [= <-]. by left.
    + intros [[= <-]|(r & H & _)]; done.
Qed.

(** ** Saving again *)

Lemma next_id_snoc (t : list CommuteLog) (r : CommuteLog) :
  id r = next_id t -> next_id (t ++ [r]) = next_id t + 1.
Proof.
  unfold next_id. intros Hid. rewrite fmap_app, foldr_app. cbn [fmap list_fmap foldr].
  assert (forall (l : list Z) a, 0 <= a -> foldr Z.max a l = Z.max a (foldr Z.max 0 l))
    as Hmax.
  { induction l as [|x l IH]; intros a Ha; cbn [foldr]; [lia|].
    rewrite IH by done. lia. }
  rewrite Hmax by lia.
  assert (0 <= foldr Z.max 0 (id <$> t)).
  { clear. induction (id <$> t) as [|x l IH]; cbn [foldr]; lia. }
  lia.
Qed.

(** X15: the view does not look for duplicates, and it does not save
    unless asked.  Saving the same form in two runs, each with its own
    reading of the clock, adds two rows that agree in every column the
    form fills; the id of the second is one larger, and each created_at is
    the clock reading of its own run, to the second.  A run of the view in
    which the save button was not pressed leaves the rows as they are.
    All of this holds however the runs end. *)
Theorem save_twice_inserts_twice (env1 env2 : Env) (f : FormInput)
    (w : World) :
  let w1 := (render_commute_tracker env1 f w).2 in
  let w2 := (render_commute_tracker env2 f w1).2 in
  (submitted f = true -> strip (form_route_name f) <> [] ->
   exists r1 r2,
     db w1 = Some (rows_of (db w) ++ [r1])
     /\ db w2 = Some (rows_of (db w) ++ [r1; r2])
     /\ id r2 = id r1 + 1
     /\ travel_date r2 = travel_date r1
     /\ travel_time r2 = travel_time r1
     /\ Store.route_name r2 = Store.route_name r1
     /\ duration_minutes r2 = duration_minutes r1
     /\ notes r2 = notes r1
     /\ created_at r1 = isoformat_seconds (now env1)
     /\ created_at r2 = isoformat_seconds (now env2)
     /\ (r2 = {| id := id r1 + 1;
                 travel_date := travel_date r1;
                 travel_time := travel_time r1;
                 Store.route_name := Store.route_name r1;
                 duration_minutes := duration_minutes r1;
                 notes := notes r1;
                 created_at := isoformat_seconds (now env2) |}))
  /\ (submitted f = false ->
      db w1 = Some (rows_of (db w)) /\ db w2 = Some (rows_of (db w))).
Proof.
  cbv zeta.
  destruct (render_commute_tracker_run env1 f w) as [drawn1 Hrun1].
  cbv zeta in Hrun1. rewrite Hrun1. cbn [snd].
  destruct (render_commute_tracker_run env2 f
              {| session_state := session_state w;
                 db := Some (if submitted f
                                && truthy (strip (form_route_name f))
                             then rows_of (db w)
                                  ++ [new_row env1 f (rows_of (db w))]
                             else rows_of (db w));
                 screen := screen w ++ drawn1 |}) as [drawn2 Hrun2].
  cbv zeta in Hrun2. rewrite Hrun2.
  cbn [snd db rows_of default from_option Datatypes.id].
  split.
  - intros Hsub Hroute.
    assert (truthy (strip (form_route_name f)) = true) as Htruthy.
    { by destruct (strip (form_route_name f)). }
    rewrite Hsub, Htruthy. cbn [andb].
    unfold default. cbn [from_option Datatypes.id].
    exists (new_row env1 f (rows_of (db w))),
      (new_row env2 f (rows_of (db w) ++ [new_row env1 f (rows_of (db w))])).
    assert (next_id (rows_of (db w) ++ [new_row env1 f (rows_of (db w))])
            = next_id (rows_of (db w)) + 1) as Hnext
      by (by apply next_id_snoc).
    split_and!; try reflexivity.
    + by rewrite <-app_assoc.
    + exact Hnext.
    + unfold new_row at 1. rewrite Hnext. reflexivity.
  - intros Hsub. rewrite Hsub. cbn [andb].
    unfold default. cbn [from_option Datatypes.id]. done.
Qed.

Lemma save_twice_inserts_twice_witness :
  submitted late_form = true
  /\ strip (form_route_name late_form) <> []
  /\ exists r1 r2,
       db (render_commute_tracker (later_env internal_error) late_form
             (render_commute_tracker (stub_env internal_error) late_form
                sample_world).2).2
       = Some (sample_table ++ [r1; r2])
       /\ id r2 = id r1 + 1
       /\ created_at r1 = py "2024-03-09T07:06:10"
       /\ created_at r2 = py "2024-03-09T07:07:10".
Proof.
  split; [reflexivity|]. split; [discriminate|].
  destruct (proj1 (save_twice_inserts_twice (stub_env internal_error)
                     (later_env internal_error) late_form sample_world)
              eq_refl ltac:(discriminate))
    as (r1 & r2 & _ & Hdb & Hid & _ & _ & _ & _ & _ & Hc1 & Hc2 & _).
  exists r1, r2.
  exact (conj Hdb (conj Hid (conj Hc1 Hc2))).
Defined.
